(** * Search-terminology resolution and gap detection: a shallow embedding

    The development follows the scripts of the marketing content portal:
    [diagnose_search.py] (query resolver), [run_terminology_migration.py]
    (terminology table and seed data), [query_popularity_report.py]
    (popularity and gap analyzer), [health_monitor.py] and
    [maintenance_orchestrator.py].

    Conventions.  Python [str] values are modelled as [string] over ASCII.
    Python floats are idealised as exact rationals ([Q]); [round(x, k)] is
    round-half-to-even on the exact value.  A database cursor is modelled by
    the table (a list of rows) it reads or writes. *)

From Stdlib Require Import List String Ascii Bool Arith ZArith NArith QArith Qround.
From Stdlib Require Import Lia Permutation Sorted.
Import ListNotations.

Close Scope Q_scope.
Local Open Scope string_scope.
Local Open Scope list_scope.

(** ** Python string primitives *)

Module Py.

Definition code (c : ascii) : N := N_of_ascii c.

Definition between (lo hi : N) (c : ascii) : bool :=
  (lo <=? code c)%N && (code c <=? hi)%N.

Definition is_upper (c : ascii) : bool := between 65 90 c.
Definition is_lower (c : ascii) : bool := between 97 122 c.
Definition is_digit (c : ascii) : bool := between 48 57 c.

(** [str.isspace] on ASCII: TAB..CR, FS..US and the blank. *)
Definition is_space (c : ascii) : bool :=
  between 9 13 c || between 28 32 c.

(** The regular-expression class [\w] on ASCII. *)
Definition is_word_char (c : ascii) : bool :=
  is_upper c || is_lower c || is_digit c || (code c =? 95)%N.

Definition lower_char (c : ascii) : ascii :=
  if is_upper c then ascii_of_N (code c + 32) else c.

(** [s.lower()] *)
Fixpoint lower (s : string) : string :=
  match s with
  | EmptyString => EmptyString
  | String c s' => String (lower_char c) (lower s')
  end.

(** [len(s)] *)
Definition len (s : string) : nat := String.length s.

(** [a in b] for two strings: [a] occurs in [b] as a substring. *)
Fixpoint contains (a b : string) : bool :=
  String.prefix a b ||
  match b with
  | EmptyString => false
  | String _ b' => contains a b'
  end.

(** The fields of [s] between separator characters, empty fields kept. *)
Fixpoint fields (sep : ascii -> bool) (s : string) : list string :=
  match s with
  | EmptyString => [EmptyString]
  | String c s' =>
      if sep c then EmptyString :: fields sep s'
      else match fields sep s' with
           | w :: ws => String c w :: ws
           | [] => [String c EmptyString]
           end
  end.

Definition nonempty (s : string) : bool :=
  match s with EmptyString => false | _ => true end.

(** [s.split()]: the maximal runs of non-blank characters. *)
Definition split (s : string) : list string :=
  filter nonempty (fields is_space s).

(** [s.split(',')] : empty fields are kept. *)
Definition split_on (sep : ascii) (s : string) : list string :=
  fields (Ascii.eqb sep) s.

Fixpoint lstrip (s : string) : string :=
  match s with
  | String c s' => if is_space c then lstrip s' else s
  | EmptyString => EmptyString
  end.

Fixpoint rstrip (s : string) : string :=
  match s with
  | EmptyString => EmptyString
  | String c s' =>
      match rstrip s' with
      | EmptyString => if is_space c then EmptyString else String c EmptyString
      | r => String c r
      end
  end.

(** [s.strip()] *)
Definition strip (s : string) : string := rstrip (lstrip s).

(** [re.findall(r'\b\w+\b', s)]: the maximal runs of word characters. *)
Definition findall_words (s : string) : list string :=
  filter nonempty (fields (fun c => negb (is_word_char c)) s).

(** [x or ''] on a nullable text column. *)
Definition or_empty (x : option string) : string :=
  match x with Some s => s | None => EmptyString end.

(** [x or 0] on a nullable integer column. *)
Definition or_zero (x : option Z) : Z :=
  match x with Some n => n | None => 0%Z end.

(** Round-half-to-even to the nearest integer. *)
Definition round_half_even (q : Q) : Z :=
  let f := Qfloor q in
  let r := (Qnum q mod Zpos (Qden q))%Z in
  match (2 * r ?= Zpos (Qden q))%Z with
  | Lt => f
  | Gt => (f + 1)%Z
  | Eq => if Z.even f then f else (f + 1)%Z
  end.

(** [round(x, 1)], as a number of tenths over ten. *)
Definition round1 (x : Q) : Q := Qmake (round_half_even (x * 10)%Q) 10.

(** [round(x, 2)] *)
Definition round2 (x : Q) : Q := Qmake (round_half_even (x * 100)%Q) 100.

(** [collections.Counter] as an association list in first-insertion
    order. *)
Section Counter.
Context {K : Type} (eqb : K -> K -> bool).

Fixpoint counter_incr (k : K) (c : list (K * nat)) : list (K * nat) :=
  match c with
  | [] => [(k, 1)]
  | (k', n) :: rest =>
      if eqb k' k then (k', S n) :: rest else (k', n) :: counter_incr k rest
  end.

Fixpoint counter_get (k : K) (c : list (K * nat)) : nat :=
  match c with
  | [] => 0
  | (k', n) :: rest => if eqb k' k then n else counter_get k rest
  end.

(** One increment per element, left to right. *)
Definition counter_of (l : list K) : list (K * nat) :=
  fold_left (fun c k => counter_incr k c) l [].
End Counter.

(** [sorted(l, key=key, reverse=True)]: descending and stable. *)
Section SortDesc.
Context {A : Type} (before : A -> A -> bool).

(** [before x y]: [x] has a strictly larger key than [y]. *)
Fixpoint insert_desc (x : A) (l : list A) : list A :=
  match l with
  | [] => [x]
  | y :: rest => if before y x then y :: insert_desc x rest else x :: l
  end.

Definition sort_desc (l : list A) : list A := fold_right insert_desc [] l.
End SortDesc.

(** [Counter.most_common(n)] *)
Definition most_common {K} (n : nat) (c : list (K * nat)) : list (K * nat) :=
  firstn n (sort_desc (fun x y => (snd y <? snd x)%nat) c).

(** A [dict] with string keys as an association list in insertion order:
    [d[k] = v] and [d.get(k)]. *)
Section Dict.
Context {V : Type}.

Fixpoint dict_set (k : string) (v : V) (d : list (string * V))
  : list (string * V) :=
  match d with
  | [] => [(k, v)]
  | (k', v') :: rest =>
      if String.eqb k' k then (k', v) :: rest
      else (k', v') :: dict_set k v rest
  end.

Fixpoint dict_get (k : string) (d : list (string * V)) : option V :=
  match d with
  | [] => None
  | (k', v') :: rest => if String.eqb k' k then Some v' else dict_get k rest
  end.
End Dict.

(** [x in l] for a list or set of strings. *)
Definition mem (x : string) (l : list string) : bool :=
  existsb (String.eqb x) l.

(** [sep.join(l)] *)
Fixpoint join (sep : string) (l : list string) : string :=
  match l with
  | [] => EmptyString
  | [x] => x
  | x :: rest => (x ++ sep ++ join sep rest)%string
  end.

Definition Qlt_bool (a b : Q) : bool := negb (Qle_bool b a).

End Py.

(** ** run_terminology_migration.py: the terminology table *)

Module TerminologyMigration.

(** A row of [terminology_map].  The generated [id] and the timestamps play
    no part in what follows and are left out; [confidence] is kept as given
    (the column rounds it to two decimals). *)
Record term_row := {
  map_type : string;
  user_term : string;
  canonical_term : string;
  confidence : Q;
  source : string;
  usage_count : option Z;
  is_active : bool;
  is_verified : bool
}.

Definition table := list term_row.

(** An [INSERT INTO terminology_map (...) VALUES (...) ON CONFLICT (...)
    DO NOTHING] for one row: the columns the statement names, and its
    conflict target. *)
Record insert_stmt := {
  i_map_type : option string;
  i_user_term : option string;
  i_canonical_term : option string;
  i_confidence : option Q;
  i_source : option string;
  i_usage_count : option Z;
  i_is_active : option bool;
  i_is_verified : option bool;
  on_conflict : list string
}.

Inductive db_error :=
| NoMatchingUniqueConstraint
| NotNullViolation (column : string)
| CheckViolation (column : string)
| InFailedSqlTransaction.

(** [CHECK (map_type IN (...))] *)
Definition map_types : list string :=
  ["content_type"; "state"; "topic"; "competitor"; "persona"; "feature"].

(** [CHECK (source IN (...))] *)
Definition sources : list string :=
  ["manual"; "ai_suggested"; "log_analysis"; "seed"].

(** [UNIQUE(map_type, user_term)], the only unique constraint besides the
    primary key. *)
Definition unique_columns : list string := ["map_type"; "user_term"].

Definition mem (x : string) (l : list string) : bool :=
  existsb (String.eqb x) l.

Definition same_columns (a b : list string) : bool :=
  forallb (fun x => mem x b) a && forallb (fun x => mem x a) b.

Definition key (r : term_row) : string * string := (map_type r, user_term r).

Definition key_eqb (k1 k2 : string * string) : bool :=
  String.eqb (fst k1) (fst k2) && String.eqb (snd k1) (snd k2).

Definition conflicts (t : table) (r : term_row) : bool :=
  existsb (fun r' => key_eqb (key r') (key r)) t.

Definition default {A} (d : A) (x : option A) : A :=
  match x with Some v => v | None => d end.

(** The row a statement proposes: column defaults filled in, [NOT NULL]
    and [CHECK] constraints enforced. *)
Definition proposed_row (s : insert_stmt) : db_error + term_row :=
  match i_map_type s, i_user_term s, i_canonical_term s with
  | None, _, _ => inl (NotNullViolation "map_type")
  | _, None, _ => inl (NotNullViolation "user_term")
  | _, _, None => inl (NotNullViolation "canonical_term")
  | Some mt, Some ut, Some ct =>
      let conf := default 1%Q (i_confidence s) in
      let src := default "manual" (i_source s) in
      if negb (mem mt map_types) then inl (CheckViolation "map_type")
      else if negb (Qle_bool 0 conf && Qle_bool conf 1)
      then inl (CheckViolation "confidence")
      else if negb (mem src sources) then inl (CheckViolation "source")
      else inr {| map_type := mt; user_term := ut; canonical_term := ct;
                  confidence := conf; source := src;
                  usage_count := Some (default 0%Z (i_usage_count s));
                  is_active := default true (i_is_active s);
                  is_verified := default false (i_is_verified s) |}
  end.

(** One statement against the table: the conflict target must name a
    unique constraint; a proposed row whose key is already present is
    dropped ([DO NOTHING]).  The boolean tells whether [RETURNING] yields a
    row. *)
Definition exec_insert (t : table) (s : insert_stmt)
  : db_error + (table * bool) :=
  if negb (same_columns (on_conflict s) unique_columns)
  then inl NoMatchingUniqueConstraint
  else match proposed_row s with
       | inl e => inl e
       | inr r => if conflicts t r then inr (t, false)
                  else inr (t ++ [r], true)
       end.

(** A connection: the committed table, the table as the open transaction
    sees it, and whether the transaction has failed. *)
Record conn := {
  committed : table;
  working : table;
  failed : bool
}.

Definition connect (t : table) : conn :=
  {| committed := t; working := t; failed := false |}.

(** [cur.execute(stmt)]: an error leaves the transaction failed, and a
    failed transaction refuses every further statement. *)
Definition execute (c : conn) (s : insert_stmt) : conn * (db_error + bool) :=
  if failed c then (c, inl InFailedSqlTransaction)
  else match exec_insert (working c) s with
       | inl e => ({| committed := committed c; working := working c;
                      failed := true |}, inl e)
       | inr (t', returned) =>
           ({| committed := committed c; working := t'; failed := false |},
            inr returned)
       end.

(** [conn.commit()]: committing a failed transaction rolls it back. *)
Definition commit (c : conn) : conn :=
  if failed c then connect (committed c) else connect (working c).

(** A row of the seed statements:
    [(map_type, user_term, canonical_term, 'seed', true, true)]. *)
Definition seed_stmt (mt ut ct : string) : insert_stmt :=
  {| i_map_type := Some mt; i_user_term := Some ut;
     i_canonical_term := Some ct; i_confidence := None;
     i_source := Some "seed"; i_usage_count := None;
     i_is_active := Some true; i_is_verified := Some true;
     on_conflict := ["map_type"; "user_term"] |}.

(** The first statement of [seed_sql]: the 1-Pager variations. *)
Definition seed_one_pager : list insert_stmt :=
  map (fun ut => seed_stmt "content_type" ut "1-Pager")
    ["one pager"; "one-pager"; "onepager"; "1 pager"; "pager"; "fact sheet";
     "factsheet"; "datasheet"; "data sheet"; "sell sheet"; "flyer"; "flier";
     "brochure"; "infographic"].

(** A multi-row [INSERT]: the rows in order; the first error aborts the
    statement. *)
Fixpoint execute_all (c : conn) (ss : list insert_stmt) : conn :=
  match ss with
  | [] => c
  | s :: rest => execute_all (fst (execute c s)) rest
  end.

(** [cur.execute(seed_sql); conn.commit()] for a list of seed rows. *)
Definition run_seed (rows : list insert_stmt) (c : conn) : conn :=
  commit (execute_all c rows).

End TerminologyMigration.

(** ** The query log and SQL's three-valued conditions *)

Module PromptLogs.

(** The columns of [ai_prompt_logs] that the analysis jobs read;
    [created_at] is in seconds. *)
Record log_entry := {
  query : option string;
  recommendations_count : option Z;
  response_time_ms : option Z;
  created_at : Z
}.

(** SQL conditions evaluate to true, false or unknown ([None]). *)
Definition sql_eq (a b : option Z) : option bool :=
  match a, b with
  | Some x, Some y => Some (x =? y)%Z
  | _, _ => None
  end.

Definition sql_is_null {A} (a : option A) : option bool :=
  match a with None => Some true | Some _ => Some false end.

Definition sql_or (a b : option bool) : option bool :=
  match a, b with
  | Some true, _ | _, Some true => Some true
  | Some false, Some false => Some false
  | _, _ => None
  end.

Definition sql_and (a b : option bool) : option bool :=
  match a, b with
  | Some false, _ | _, Some false => Some false
  | Some true, Some true => Some true
  | _, _ => None
  end.

(** [WHERE] and [FILTER] keep a row only when the condition is true. *)
Definition holds (c : option bool) : bool :=
  match c with Some true => true | _ => false end.

(** [recommendations_count = 0 OR recommendations_count IS NULL] *)
Definition zero_or_null (l : log_entry) : option bool :=
  sql_or (sql_eq (recommendations_count l) (Some 0%Z))
         (sql_is_null (recommendations_count l)).

(** [created_at > NOW() - INTERVAL 'n seconds'] *)
Definition newer_than (now seconds : Z) (l : log_entry) : option bool :=
  Some (now - seconds <? created_at l)%Z.

Definition day : Z := 86400.

End PromptLogs.

(** ** The JSONB column [keywords] of [marketing_content] *)

Module Keywords.




End Keywords.

(** ** diagnose_search.py: the query resolver *)

Module DiagnoseSearch.

(** A row of [SELECT user_term, canonical_term, source, usage_count
    FROM terminology_map]. *)
Record mapping_row := {
  user_term : option string;
  canonical_term : option string;
  source : option string;
  usage_count : option Z
}.

Record matched_mapping := {
  m_user_term : option string;
  m_canonical_term : option string;
  matched_token : string;
  m_usage_count : Z
}.

Record terminology_trace := {
  total_mappings_available : nat;
  matched_mappings : list matched_mapping;
  unmatched_tokens : list string;
  mapping_coverage : Q
}.

(** [tokens = [t.lower() for t in re.findall(r'\b\w+\b', query) if len(t) > 2]] *)
Definition tokenize (query : string) : list string :=
  map Py.lower (filter (fun t => (2 <? Py.len t)%nat) (Py.findall_words query)).

(** The test of the inner loop of [step_trace_terminology]. *)
Definition token_matches (token user canonical : string) : bool :=
  String.eqb token user || Py.contains token user ||
  Py.contains user token || String.eqb token canonical.

(** The inner [for token in tokens: ... break]: the first matching token. *)
Fixpoint first_match (user canonical : string) (tokens : list string)
  : option string :=
  match tokens with
  | [] => None
  | token :: rest =>
      if token_matches token user canonical then Some token
      else first_match user canonical rest
  end.

(** The outer loop over [all_mappings]; [unmatched] models the Python set
    [unmatched_tokens] as a duplicate-free list. *)
Fixpoint trace_loop (all_mappings : list mapping_row) (tokens : list string)
    (matched : list matched_mapping) (unmatched : list string)
  : list matched_mapping * list string :=
  match all_mappings with
  | [] => (matched, unmatched)
  | mapping :: rest =>
      let user := Py.lower (Py.or_empty (user_term mapping)) in
      let canonical := Py.lower (Py.or_empty (canonical_term mapping)) in
      match first_match user canonical tokens with
      | Some token =>
          trace_loop rest tokens
            (matched ++ [{| m_user_term := user_term mapping;
                            m_canonical_term := canonical_term mapping;
                            matched_token := token;
                            m_usage_count := Py.or_zero (usage_count mapping) |}])
            (remove string_dec token unmatched)
      | None => trace_loop rest tokens matched unmatched
      end
  end.

Definition coverage (n_matched n_tokens : nat) : Q :=
  Py.round1 (inject_Z (Z.of_nat n_matched)
             / inject_Z (Z.max (Z.of_nat n_tokens) 1) * 100)%Q.

Definition step_trace_terminology (all_mappings : list mapping_row)
    (tokens : list string) : terminology_trace :=
  let '(matched, unmatched) :=
    trace_loop all_mappings tokens [] (nodup string_dec tokens) in
  {| total_mappings_available := List.length all_mappings;
     matched_mappings := matched;
     unmatched_tokens := unmatched;
     mapping_coverage := coverage (List.length matched) (List.length tokens) |}.

(** [SELECT user_term, canonical_term, source, usage_count FROM
    terminology_map ORDER BY usage_count DESC NULLS LAST]; rows with equal
    counts keep the table's order. *)
Definition usage_before (a b : mapping_row) : bool :=
  match usage_count a, usage_count b with
  | Some x, Some y => (y <? x)%Z
  | Some _, None => true
  | None, _ => false
  end.

Definition select_mappings (t : TerminologyMigration.table)
  : list mapping_row :=
  Py.sort_desc usage_before
    (map (fun r =>
            {| user_term := Some (TerminologyMigration.user_term r);
               canonical_term := Some (TerminologyMigration.canonical_term r);
               source := Some (TerminologyMigration.source r);
               usage_count := TerminologyMigration.usage_count r |}) t).

(** Steps 1 and 2 of [diagnose_query] on a table. *)
Definition trace_query (t : TerminologyMigration.table) (query : string)
  : terminology_trace :=
  step_trace_terminology (select_mappings t) (tokenize query).

(** *** Step 6: auto-fix *)

(** An entry of [diagnosis['recommended_fixes']]. *)
Record recommended_fix := {
  fix_type : option string;
  description : option string;
  fix_user_term : option string;      (* specifics.user_term *)
  fix_standard_term : option string   (* specifics.standard_term *)
}.

Record applied_fix := {
  a_user_term : string;
  a_canonical_term : string;
  a_dry_run : bool   (* [true]: 'dry_run': True; [false]: 'applied': True *)
}.

Inductive skip_reason :=
| MissingTerm
| Raised (e : TerminologyMigration.db_error)
| NotSupported (fix_type : option string).

Inductive fix_status := Skipped | Applied | NoneApplicable.

Record auto_fix_result := {
  status : fix_status;
  fixes_applied : list applied_fix;
  fixes_skipped : list (recommended_fix * skip_reason);
  total_applied : nat
}.

(** [INSERT INTO terminology_map (user_term, canonical_term, source,
    usage_count) VALUES (%s, %s, 'auto_diagnose', 0)
    ON CONFLICT (user_term) DO NOTHING] *)
Definition auto_fix_stmt (user standard : string)
  : TerminologyMigration.insert_stmt :=
  {| TerminologyMigration.i_map_type := None;
     TerminologyMigration.i_user_term := Some user;
     TerminologyMigration.i_canonical_term := Some standard;
     TerminologyMigration.i_confidence := None;
     TerminologyMigration.i_source := Some "auto_diagnose";
     TerminologyMigration.i_usage_count := Some 0%Z;
     TerminologyMigration.i_is_active := None;
     TerminologyMigration.i_is_verified := None;
     TerminologyMigration.on_conflict := ["user_term"] |}.

Definition is_add_terminology (f : recommended_fix) : bool :=
  match fix_type f with
  | Some ty => String.eqb ty "add_terminology"
  | None => false
  end.

(** The loop over [diagnosis['recommended_fixes']]. *)
Fixpoint auto_fix_loop (c : TerminologyMigration.conn) (fixes : list recommended_fix)
    (dry_run : bool) (applied : list applied_fix)
    (skipped : list (recommended_fix * skip_reason))
  : TerminologyMigration.conn * list applied_fix * list (recommended_fix * skip_reason) :=
  match fixes with
  | [] => (c, applied, skipped)
  | f :: rest =>
      if is_add_terminology f then
        let user := Py.or_empty (fix_user_term f) in
        let standard := Py.or_empty (fix_standard_term f) in
        if negb (Py.nonempty user) || negb (Py.nonempty standard) then
          auto_fix_loop c rest dry_run applied (skipped ++ [(f, MissingTerm)])
        else if dry_run then
          auto_fix_loop c rest dry_run
            (applied ++ [{| a_user_term := user; a_canonical_term := standard;
                            a_dry_run := true |}]) skipped
        else
          match TerminologyMigration.execute c (auto_fix_stmt user standard) with
          | (c', inr _) =>
              auto_fix_loop (TerminologyMigration.commit c') rest dry_run
                (applied ++ [{| a_user_term := user;
                                a_canonical_term := standard;
                                a_dry_run := false |}]) skipped
          | (c', inl e) =>
              auto_fix_loop c' rest dry_run applied (skipped ++ [(f, Raised e)])
          end
      else
        auto_fix_loop c rest dry_run applied
          (skipped ++ [(f, NotSupported (fix_type f))])
  end.

(** [diagnosis] is [None] when it has no ['recommended_fixes'] key. *)
Definition step_auto_fix (c : TerminologyMigration.conn)
    (diagnosis : option (list recommended_fix)) (dry_run : bool)
  : TerminologyMigration.conn * auto_fix_result :=
  match diagnosis with
  | None => (c, {| status := Skipped; fixes_applied := [];
                   fixes_skipped := []; total_applied := 0 |})
  | Some fixes =>
      let '(c', applied, skipped) := auto_fix_loop c fixes dry_run [] [] in
      (c', {| status := match applied with [] => NoneApplicable | _ => Applied end;
              fixes_applied := applied;
              fixes_skipped := skipped;
              total_applied := List.length applied |})
  end.

(** *** [--worst N]: the most frequent zero-result queries of the week *)

Definition option_string_eqb (a b : option string) : bool :=
  match a, b with
  | Some x, Some y => String.eqb x y
  | None, None => true
  | _, _ => false
  end.

(** The rows the [WHERE] clause keeps. *)
Definition worst_rows (now : Z) (logs : list PromptLogs.log_entry)
  : list PromptLogs.log_entry :=
  filter (fun l => PromptLogs.holds
                     (PromptLogs.sql_and
                        (PromptLogs.newer_than now (7 * PromptLogs.day) l)
                        (PromptLogs.zero_or_null l))) logs.

(** [GROUP BY query ORDER BY query_count DESC LIMIT n] *)
Definition worst_queries (now : Z) (n : nat)
    (logs : list PromptLogs.log_entry) : list (option string * nat) :=
  Py.most_common n
    (Py.counter_of option_string_eqb
       (map PromptLogs.query (worst_rows now logs))).

End DiagnoseSearch.


(** ** query_popularity_report.py: the popularity and gap analyzer *)

Module QueryPopularityReport.

Definition LOW_RECOMMENDATION_THRESHOLD : Q := 2.


(** [existing_mappings]: map type, then user term, to canonical term. *)
Definition mappings := list (string * list (string * string)).

(** The body of the loop of [fetch_terminology_mappings]:
    [mappings[map_type][user_term] = canonical_term], with the inner
    dictionary created on first use. *)
Definition add_mapping (m : mappings) (row : TerminologyMigration.term_row)
  : mappings :=
  let ty := TerminologyMigration.map_type row in
  let m' := match Py.dict_get ty m with
            | Some _ => m
            | None => Py.dict_set ty [] m
            end in
  let inner := match Py.dict_get ty m' with
               | Some d => d
               | None => []
               end in
  Py.dict_set ty
    (Py.dict_set (TerminologyMigration.user_term row)
                 (TerminologyMigration.canonical_term row) inner) m'.

(** [fetch_terminology_mappings]: the active rows, grouped by type. *)
Definition fetch_terminology_mappings (t : TerminologyMigration.table)
  : mappings :=
  fold_left add_mapping (filter TerminologyMigration.is_active t) [].

(** *** Section 2: content gap analysis *)

(** An entry of the popularity ranking; the keys that the gap analysis
    does not read are left out. *)
Record ranking_entry := {
  r_query : string;
  count : nat;
  avg_recommendations : Q
}.

Record content_item := {
  title : option string;
  summary : option string;
  tags : option string
}.

Inductive severity := high | medium | low.

Record gap := {
  g_query : string;
  search_count : nat;
  g_avg_recommendations : Q;
  content_matches_found : nat;
  gap_severity : severity;
  g_gap_score : Q;
  flagged : bool
}.

Definition content_text (item : content_item) : string :=
  Py.join " "
    (filter Py.nonempty
       [Py.lower (Py.or_empty (title item));
        Py.lower (Py.or_empty (summary item));
        Py.lower (Py.or_empty (tags item))]).

(** The number of content texts that contain a significant query word. *)
Definition content_matches (content_texts : list string) (query : string)
  : nat :=
  let significant_words :=
    filter (fun w => (2 <? Py.len w)%nat) (Py.split query) in
  List.length
    (filter (fun text => existsb (fun word => Py.contains word text)
                           significant_words) content_texts).

(** The if-chain that determines the gap severity; [None] is the branch
    "not a gap". *)
Definition classify (avg_recs : Q) (matches n : nat) : option severity :=
  if Qeq_bool avg_recs 0 then Some high
  else if Py.Qlt_bool avg_recs LOW_RECOMMENDATION_THRESHOLD then Some medium
  else if (matches <? 3)%nat && (3 <=? n)%nat then Some low
  else None.

(** [entry['count'] * (1 / (avg_recs + 0.1))] *)
Definition gap_score (n : nat) (avg_recs : Q) : Q :=
  (inject_Z (Z.of_nat n) * (1 / (avg_recs + (1 # 10))))%Q.

(** The body of the loop over the ranking: the gap appended for an entry,
    if any. *)
Definition gap_of_entry (content_texts : list string) (entry : ranking_entry)
  : option gap :=
  if (count entry <? 2)%nat then None
  else
    let avg_recs := avg_recommendations entry in
    let matches := content_matches content_texts (r_query entry) in
    match classify avg_recs matches (count entry) with
    | None => None
    | Some sev =>
        Some {| g_query := r_query entry;
                search_count := count entry;
                g_avg_recommendations := avg_recs;
                content_matches_found := matches;
                gap_severity := sev;
                g_gap_score := Py.round2 (gap_score (count entry) avg_recs);
                flagged := false |}
    end.

Fixpoint collect_gaps (content_texts : list string)
    (ranking : list ranking_entry) : list gap :=
  match ranking with
  | [] => []
  | entry :: rest =>
      match gap_of_entry content_texts entry with
      | Some g => g :: collect_gaps content_texts rest
      | None => collect_gaps content_texts rest
      end
  end.

Definition generate_content_gap_analysis (popularity_ranking : list ranking_entry)
    (content_inventory : list content_item) : list gap :=
  Py.sort_desc (fun x y => Py.Qlt_bool (g_gap_score y) (g_gap_score x))
    (collect_gaps (map content_text content_inventory) popularity_ranking).

(** *** Section 4: terminology mining *)

Definition stopwords : list string :=
  ["the"; "a"; "an"; "and"; "or"; "but"; "in"; "on"; "at"; "to"; "for";
   "of"; "with"; "by"; "from"; "is"; "are"; "was"; "were"; "be"; "been";
   "has"; "have"; "had"; "do"; "does"; "did"; "will"; "would"; "could";
   "should"; "may"; "might"; "can"; "shall"; "not"; "no"; "nor";
   "it"; "its"; "this"; "that"; "these"; "those"; "i"; "me"; "my"; "we";
   "our"; "you"; "your"; "he"; "she"; "they"; "them"; "their"; "what";
   "which"; "who"; "when"; "where"; "why"; "how"; "all"; "each"; "every";
   "both"; "few"; "more"; "most"; "other"; "some"; "such"; "any";
   "show"; "me"; "find"; "get"; "give"; "about"; "like"; "need";
   "want"; "looking"; "search"; "content"; "schoolinks"; "schoolink"].

(** Both sides of every existing mapping, lowercased. *)
Definition mapped_terms (existing_mappings : mappings) : list string :=
  flat_map (fun tm => map (fun kv => Py.lower (fst kv)) (snd tm)
                      ++ map (fun kv => Py.lower (snd kv)) (snd tm))
           existing_mappings.

(** [query = (log['query'] or '').strip().lower()] *)
Definition normalized (l : PromptLogs.log_entry) : string :=
  Py.lower (Py.strip (Py.or_empty (PromptLogs.query l))).

(** The adjacent pairs [f"{w[i]} {w[i+1]}"]. *)
Fixpoint bigrams (query_words : list string) : list string :=
  match query_words with
  | w1 :: ((w2 :: _) as rest) => (w1 ++ " " ++ w2)%string :: bigrams rest
  | _ => []
  end.

(** The unigrams of one query that the loop counts. *)
Definition counted_unigrams (mapped : list string) (query : string)
  : list string :=
  filter (fun word => (2 <? Py.len word)%nat
                      && negb (Py.mem word stopwords)
                      && negb (Py.mem word mapped))
         (map (fun word => Py.lower (Py.strip word)) (Py.split query)).

(** The bigrams of one query that the loop counts. *)
Definition counted_bigrams (mapped : list string) (query : string)
  : list string :=
  filter (fun bigram => negb (Py.mem bigram mapped)
                        && negb (forallb (fun w => Py.mem w stopwords)
                                         (Py.split bigram)))
         (bigrams (Py.split query)).

(** Every increment of [term_counter], in order, with the query that
    caused it. *)
Definition counted (mapped : list string) (logs : list PromptLogs.log_entry)
  : list (string * string) :=
  flat_map (fun l => let query := normalized l in
                     map (fun term => (term, query))
                         (counted_unigrams mapped query
                          ++ counted_bigrams mapped query)) logs.

(** [term_examples]: per term, the first three queries that counted it. *)
Definition add_example (ex : list (string * list string))
    (e : string * string) : list (string * list string) :=
  let l := match Py.dict_get (fst e) ex with Some l => l | None => [] end in
  if (List.length l <? 3)%nat then Py.dict_set (fst e) (l ++ [snd e]) ex
  else Py.dict_set (fst e) l ex.

Record unmapped_term := {
  term : string;
  term_count : nat;
  example_queries : list string
}.

(** Part A of [generate_terminology_suggestions]: the ['unmapped_terms']
    of its result. *)
Definition unmapped_terms (logs : list PromptLogs.log_entry)
    (existing_mappings : mappings) : list unmapped_term :=
  let mapped := mapped_terms existing_mappings in
  let events := counted mapped logs in
  let term_counter := Py.counter_of String.eqb (map fst events) in
  let term_examples := fold_left add_example events [] in
  firstn 50
    (map (fun tc =>
            {| term := fst tc;
               term_count := snd tc;
               example_queries :=
                 firstn 3 (nodup string_dec
                             (match Py.dict_get (fst tc) term_examples with
                              | Some l => l
                              | None => []
                              end)) |})
         (filter (fun tc => (2 <=? snd tc)%nat)
                 (Py.most_common 100 term_counter))).

(** *** Inserting suggestions *)

Record suggestion := {
  s_user_term : option string;
  s_canonical_term : option string;
  s_map_type : option string;
  s_confidence : option Q
}.

(** [INSERT INTO terminology_map (map_type, user_term, canonical_term,
    source, confidence, is_verified, is_active) VALUES (%s, %s, %s,
    'log_analysis', %s, false, false) ON CONFLICT (map_type, user_term)
    DO NOTHING RETURNING id] *)
Definition suggestion_stmt (s : suggestion)
  : TerminologyMigration.insert_stmt :=
  {| TerminologyMigration.i_map_type :=
       Some (TerminologyMigration.default "content_type" (s_map_type s));
     TerminologyMigration.i_user_term :=
       Some (Py.lower (TerminologyMigration.default "" (s_user_term s)));
     TerminologyMigration.i_canonical_term :=
       Some (TerminologyMigration.default "" (s_canonical_term s));
     TerminologyMigration.i_confidence :=
       Some (TerminologyMigration.default (1 # 2)%Q (s_confidence s));
     TerminologyMigration.i_source := Some "log_analysis";
     TerminologyMigration.i_usage_count := None;
     TerminologyMigration.i_is_active := Some false;
     TerminologyMigration.i_is_verified := Some false;
     TerminologyMigration.on_conflict := ["map_type"; "user_term"] |}.

Fixpoint insert_loop (c : TerminologyMigration.conn)
    (suggestions : list suggestion) (inserted : nat)
  : TerminologyMigration.conn * nat :=
  match suggestions with
  | [] => (c, inserted)
  | s :: rest =>
      match TerminologyMigration.execute c (suggestion_stmt s) with
      | (c', inr true) => insert_loop c' rest (S inserted)
      | (c', _) => insert_loop c' rest inserted
      end
  end.

Definition insert_terminology_suggestions (c : TerminologyMigration.conn)
    (suggestions : list suggestion) (dry_run : bool)
  : TerminologyMigration.conn * nat :=
  match suggestions with
  | [] => (c, 0)
  | _ =>
      if dry_run then (c, 0)
      else let '(c', inserted) := insert_loop c suggestions 0 in
           (TerminologyMigration.commit c', inserted)
  end.

(** *** The basic metrics of [main] *)




End QueryPopularityReport.

(** ** health_monitor.py: the search-quality check *)

Module HealthMonitor.

Inductive check_status := pass | warn | fail.
Inductive alert_severity := alert_high | alert_medium.

Record query_quality := {
  status : check_status;
  total_queries_24h : nat;
  zero_result_queries : nat;
  zero_result_rate : Q;
  baseline_zero_result_rate : Q;
  alerts : list alert_severity
}.

(** [WHERE created_at > NOW() - INTERVAL '24 hours'] *)
Definition current_rows (now : Z) (logs : list PromptLogs.log_entry) :=
  filter (fun l => PromptLogs.holds (PromptLogs.newer_than now PromptLogs.day l))
         logs.

(** [WHERE created_at > NOW() - INTERVAL 'n days'
    AND created_at <= NOW() - INTERVAL '24 hours'] *)
Definition baseline_rows (now baseline_days : Z)
    (logs : list PromptLogs.log_entry) :=
  filter (fun l =>
            PromptLogs.holds
              (PromptLogs.sql_and
                 (PromptLogs.newer_than now (baseline_days * PromptLogs.day) l)
                 (Some (PromptLogs.created_at l <=? now - PromptLogs.day)%Z)))
         logs.

(** [count FILTER (WHERE recommendations_count = 0
    OR recommendations_count IS NULL)] *)
Definition count_zero_result (rows : list PromptLogs.log_entry) : nat :=
  List.length (filter (fun l => PromptLogs.holds (PromptLogs.zero_or_null l))
                      rows).

(** [zero / max(total, 1) * 100], as the queries and the script compute
    it. *)
Definition rate (zero total : nat) : Q :=
  (inject_Z (Z.of_nat zero) / inject_Z (Z.max (Z.of_nat total) 1) * 100)%Q.

Definition step_query_quality (now baseline_days : Z)
    (threshold_zero_rate : Q) (logs : list PromptLogs.log_entry)
  : query_quality :=
  let current := current_rows now logs in
  let baseline := baseline_rows now baseline_days logs in
  let total := List.length current in
  let zero := count_zero_result current in
  let current_zero_rate := Py.round1 (rate zero total) in
  let baseline_zero_rate :=
    Py.round1 (rate (count_zero_result baseline) (List.length baseline)) in
  let alerts :=
    (if Py.Qlt_bool (threshold_zero_rate * 100)%Q current_zero_rate
     then [alert_high] else [])
    ++ (if Py.Qlt_bool 0 baseline_zero_rate
           && Py.Qlt_bool (baseline_zero_rate * (3 # 2))%Q current_zero_rate
        then [alert_medium] else []) in
  {| status := if existsb (fun a => match a with alert_high => true
                                             | alert_medium => false end) alerts
               then fail
               else match alerts with [] => pass | _ => warn end;
     total_queries_24h := total;
     zero_result_queries := zero;
     zero_result_rate := current_zero_rate;
     baseline_zero_result_rate := baseline_zero_rate;
     alerts := alerts |}.


(** *** Content freshness *)






(** *** Pipeline status *)








(** *** Terminology health *)



(** *** The AI step and the overall verdict *)









End HealthMonitor.

(** ** maintenance_orchestrator.py *)

Module MaintenanceOrchestrator.

Definition MAINTENANCE_STEPS : list (string * list string) :=
  [("daily", ["health_check_pre"; "log_analysis"; "enrichment";
              "tag_hygiene"; "health_check_post"]);
   ("weekly", ["health_check_pre"; "log_analysis"; "enrichment";
               "tag_hygiene"; "content_audit"; "content_gaps";
               "health_check_post"]);
   ("full", ["health_check_pre"; "log_analysis"; "enrichment";
             "tag_hygiene"; "content_audit"; "content_gaps"; "import_all";
             "health_check_post"])].

Definition daily_steps : list string :=
  ["health_check_pre"; "log_analysis"; "enrichment"; "tag_hygiene";
   "health_check_post"].

Record args := {
  mode : string;
  skip : option string;
  stop_on_error : bool;
  dry_run : bool;
  verbose : bool
}.

(** What is found at a report path after the health monitor ran. *)
Inductive report_file :=
| Missing
| Unreadable
| Report (overall_status : option string).

(** The outside world of one run: whether each script exits with code 0,
    and the two health reports. *)
Record world := {
  succeeds : string -> bool;
  health_pre : report_file;
  health_post : report_file
}.

(** The dictionaries that the steps return; durations and counts are left
    out. *)
Inductive step_result :=
| PreHealth (success : bool) (health_status : string) (critical : bool)
| Ran (success : bool)
| PostHealth (success : bool) (health_status_post : string).

(** A value of the [results] dictionary: a step result, or the name
    stored under ['stopped_at']. *)
Inductive value :=
| Result (r : step_result)
| Name (s : string).

Definition success_of (r : step_result) : bool :=
  match r with
  | PreHealth s _ _ | Ran s | PostHealth s _ => s
  end.

(** [result.get('critical')] *)
Definition critical_of (r : step_result) : bool :=
  match r with
  | PreHealth _ _ c => c
  | _ => false
  end.

Definition status_of (f : report_file) : string :=
  match f with
  | Report (Some s) => s
  | _ => "unknown"
  end.

Definition step_health_check_pre (w : world) : step_result :=
  let health_status := status_of (health_pre w) in
  PreHealth (succeeds w "health_monitor.py --output /tmp/health_pre.json")
            health_status (String.eqb health_status "critical").

Definition step_log_analysis (w : world) : step_result :=
  Ran (succeeds w "log_analyzer.py").

Definition step_enrichment (w : world) : step_result :=
  Ran (succeeds w "enrich_deep.py").

Definition step_tag_hygiene (w : world) : step_result :=
  let improver := succeeds w "submission_agent_improver.py" in
  let format := succeeds w "fix_tag_format.py" in
  Ran (improver && format).

Definition step_content_audit (w : world) : step_result :=
  Ran (succeeds w "audit_content_tags.py").

Definition step_content_gaps (w : world) : step_result :=
  Ran (succeeds w "query_popularity_report.py").

Definition step_import_all (w : world) : step_result :=
  Ran (succeeds w "import_orchestrator.py").

Definition step_health_check_post (w : world) : step_result :=
  PostHealth (succeeds w "health_monitor.py --output /tmp/health_post.json")
             (status_of (health_post w)).

(** The steps that stop the run on their own failure. *)
Definition plain_step (w : world) (step_name : string) : option step_result :=
  if String.eqb step_name "log_analysis" then Some (step_log_analysis w)
  else if String.eqb step_name "enrichment" then Some (step_enrichment w)
  else if String.eqb step_name "tag_hygiene" then Some (step_tag_hygiene w)
  else if String.eqb step_name "content_audit" then Some (step_content_audit w)
  else if String.eqb step_name "content_gaps" then Some (step_content_gaps w)
  else if String.eqb step_name "import_all" then Some (step_import_all w)
  else None.

(** [steps_to_run], after the skip filter. *)
Definition steps_to_run (a : args) : list string :=
  let steps := match Py.dict_get (mode a) MAINTENANCE_STEPS with
               | Some l => l
               | None => daily_steps
               end in
  match skip a with
  | Some (String c rest) =>
      let skip_list := map Py.strip (Py.split_on "," (String c rest)) in
      filter (fun s => negb (Py.mem s skip_list)) steps
  | _ => steps
  end.

(** The loop [for step_name in steps_to_run], with its [break]s. *)
Fixpoint run_steps (a : args) (w : world) (steps : list string)
    (results : list (string * value)) : list (string * value) :=
  match steps with
  | [] => results
  | step_name :: rest =>
      if String.eqb step_name "health_check_pre" then
        let result := step_health_check_pre w in
        let results := Py.dict_set step_name (Result result) results in
        if critical_of result && stop_on_error a
        then Py.dict_set "stopped_at" (Name step_name) results
        else run_steps a w rest results
      else match plain_step w step_name with
           | Some result =>
               let results := Py.dict_set step_name (Result result) results in
               if negb (success_of result) && stop_on_error a
               then Py.dict_set "stopped_at" (Name step_name) results
               else run_steps a w rest results
           | None =>
               if String.eqb step_name "health_check_post" then
                 run_steps a w rest
                   (Py.dict_set step_name
                      (Result (step_health_check_post w)) results)
               else run_steps a w rest results
           end
  end.

Definition run_maintenance (a : args) (w : world) : list (string * value) :=
  run_steps a w (steps_to_run a) [].

(** The report that [main] builds from the results. *)
Record report := {
  report_mode : string;
  report_results : list (string * value);
  stopped_at : option value
}.

Definition maintenance_report (a : args) (w : world) : report :=
  let results := run_maintenance a w in
  {| report_mode := mode a;
     report_results := results;
     stopped_at := Py.dict_get "stopped_at" results |}.

(** The steps that were executed, in order: the keys of [results] that
    hold a step result. *)
Definition executed (results : list (string * value)) : list string :=
  map fst (filter (fun kv => match snd kv with Result _ => true
                                          | Name _ => false end) results).

(** [print_maintenance_report] evaluates [r.get('success')] on every value
    of [results]; a string has no [get], and the call raises ([None]). *)
Definition get_success (v : value) : option bool :=
  match v with
  | Result r => Some (success_of r)
  | Name _ => None
  end.

(** [sum(1 for r in results.values() if r.get('success'))] *)
Fixpoint successful (results : list (string * value)) : option nat :=
  match results with
  | [] => Some 0
  | (_, v) :: rest =>
      match get_success v, successful rest with
      | Some true, Some n => Some (S n)
      | Some false, Some n => Some n
      | _, _ => None
      end
  end.

End MaintenanceOrchestrator.

(** * Notions used in the statements *)

Section TerminologyTraceNotions.

Import DiagnoseSearch.


Definition discard_all (ms : list matched_mapping) (unmatched : list string)
  : list string :=
  fold_left (fun u m => remove string_dec (matched_token m) u) ms unmatched.

End TerminologyTraceNotions.

Section CoverageNotions.

Import DiagnoseSearch.



(** The table after the first seed statement. *)
Definition seeded : TerminologyMigration.table :=
  TerminologyMigration.committed
    (TerminologyMigration.run_seed TerminologyMigration.seed_one_pager
       (TerminologyMigration.connect [])).

(** The only mapping of scenario B; the columns that the scenario leaves
    open are arbitrary. *)
Definition one_pager_row (conf : Q) (src : string) (used : option Z)
    (verified : bool) : TerminologyMigration.term_row :=
  {| TerminologyMigration.map_type := "content_type";
     TerminologyMigration.user_term := "one pager";
     TerminologyMigration.canonical_term := "1-Pager";
     TerminologyMigration.confidence := conf;
     TerminologyMigration.source := src;
     TerminologyMigration.usage_count := used;
     TerminologyMigration.is_active := true;
     TerminologyMigration.is_verified := verified |}.

(** Scenario B as the specification words it. *)
Definition scenario_B_as_specified (t : TerminologyMigration.table) : Prop :=
  let r := trace_query t "need a one pager on fafsa" in
  In (Some "one pager") (map m_user_term (matched_mappings r))
  /\ ~ In "one" (unmatched_tokens r)
  /\ ~ In "pager" (unmatched_tokens r).

End CoverageNotions.

Section TerminologyStoreNotions.

Import TerminologyMigration.

(** [UNIQUE(map_type, user_term)] *)
Definition unique_keys (t : table) : Prop := NoDup (map key t).

(** The statement can be planned and proposes the row [r]. *)
Definition proposes (s : insert_stmt) (r : term_row) : Prop :=
  same_columns (on_conflict s) unique_columns = true
  /\ proposed_row s = inr r.

Definition seed_row (x : string * string * string) : insert_stmt :=
  let '(mt, ut, ct) := x in seed_stmt mt ut ct.

End TerminologyStoreNotions.

Section StoreExamplesNotions.

Import TerminologyMigration.

Definition one_pager_seeds : list (string * string * string) :=
  map (fun ut => ("content_type", ut, "1-Pager"))
    ["one pager"; "one-pager"; "onepager"; "1 pager"; "pager"; "fact sheet";
     "factsheet"; "datasheet"; "data sheet"; "sell sheet"; "flyer"; "flier";
     "brochure"; "infographic"].

Definition brochure_as_ebook : QueryPopularityReport.suggestion :=
  {| QueryPopularityReport.s_user_term := Some "Brochure";
     QueryPopularityReport.s_canonical_term := Some "Ebook";
     QueryPopularityReport.s_map_type := Some "content_type";
     QueryPopularityReport.s_confidence := Some (4 # 5)%Q |}.

End StoreExamplesNotions.

Section AutoFixNotions.

Import TerminologyMigration DiagnoseSearch.

Definition fact_sheet_fix : recommended_fix :=
  {| fix_type := Some "add_terminology";
     description := Some "Map fact sheet to 1-Pager";
     fix_user_term := Some "fact sheet";
     fix_standard_term := Some "1-Pager" |}.

End AutoFixNotions.

Section GapAnalysisNotions.

Import QueryPopularityReport.

(** The severity of the gap recorded for an entry, if one is. *)
Definition severity_of (texts : list string) (entry : ranking_entry)
  : option severity :=
  option_map gap_severity (gap_of_entry texts entry).

Definition fafsa_checklist : ranking_entry :=
  {| r_query := "fafsa checklist"; count := 5; avg_recommendations := 0 |}.

Definition xello_overview : content_item :=
  {| title := Some "Xello Overview"; summary := None;
     tags := Some "competitor, xello" |}.

End GapAnalysisNotions.

Section StringsNotions.

Fixpoint no_char (p : ascii -> bool) (s : string) : Prop :=
  match s with
  | EmptyString => True
  | String c s' => p c = false /\ no_char p s'
  end.

End StringsNotions.

Section TerminologyMiningNotions.

Import QueryPopularityReport.

(** Every word and every pair of adjacent words of the normalized raw
    queries, one entry per occurrence. *)
Definition raw_terms (logs : list PromptLogs.log_entry) : list string :=
  flat_map (fun l => Py.split (normalized l) ++ bigrams (Py.split (normalized l)))
           logs.

Definition raw_occurrences (t : string) (logs : list PromptLogs.log_entry)
  : nat :=
  count_occ string_dec (raw_terms logs) t.

(** [user] maps to [canonical] in some type of [existing_mappings]. *)
Definition maps_to (existing_mappings : mappings) (user canonical : string)
  : Prop :=
  exists ty d, In (ty, d) existing_mappings /\ In (user, canonical) d.

End TerminologyMiningNotions.

Section FetchMappingsNotions.

Import QueryPopularityReport.

(** [mappings.get(ty, {}).get(user)] *)
Definition lookup (m : mappings) (k : string * string) : option string :=
  match Py.dict_get (fst k) m with
  | Some d => Py.dict_get (snd k) d
  | None => None
  end.

End FetchMappingsNotions.

Section MiningExampleNotions.

Import QueryPopularityReport.

Definition logged (q : string) (recs : option Z) (at_ : Z)
  : PromptLogs.log_entry :=
  {| PromptLogs.query := Some q;
     PromptLogs.recommendations_count := recs;
     PromptLogs.response_time_ms := None;
     PromptLogs.created_at := at_ |}.

Definition fafsa_logs : list PromptLogs.log_entry :=
  [logged "FAFSA checklist" (Some 0%Z) 100;
   logged " fafsa checklist " None 150;
   logged "need a one pager" (Some 3%Z) 160].

Definition fafsa_mappings : mappings := [("topic", [("fafsa", "FAFSA")])].

Definition checklist : unmapped_term :=
  {| term := "checklist"; term_count := 2;
     example_queries := ["fafsa checklist"] |}.

End MiningExampleNotions.

Section ZeroResultsNotions.

Import PromptLogs.



End ZeroResultsNotions.

Section HealthGateNotions.

Import MaintenanceOrchestrator.

Definition pre : string := "health_check_pre".

(** The steps of a mode after the pre-run health check. *)
Definition later_steps : list string :=
  ["log_analysis"; "enrichment"; "tag_hygiene"; "content_audit";
   "content_gaps"; "import_all"; "health_check_post"].

Definition daily_stop : args :=
  {| mode := "daily"; skip := Some "tag_hygiene, content_audit";
     stop_on_error := true; dry_run := false; verbose := false |}.

Definition critical_world : world :=
  {| succeeds := fun _ => false;
     health_pre := Report (Some "critical");
     health_post := Missing |}.

End HealthGateNotions.

Section GateOpenNotions.

Import MaintenanceOrchestrator.

Definition is_result (v : value) : bool :=
  match v with Result _ => true | Name _ => false end.

Definition unreadable_world : world :=
  {| succeeds := fun _ => false;
     health_pre := Unreadable;
     health_post := Missing |}.

End GateOpenNotions.

Section OrchestratorRunNotions.

Import MaintenanceOrchestrator.

(** The result that running the step [s] stores. *)
Definition outcome (w : world) (s : string) : step_result :=
  if String.eqb s "health_check_pre" then step_health_check_pre w
  else match plain_step w s with
       | Some r => r
       | None => step_health_check_post w
       end.

(** Whether the loop breaks after the step [s]. *)
Definition halts_at (a : args) (w : world) (s : string) : bool :=
  stop_on_error a
  && (if String.eqb s "health_check_pre"
      then critical_of (step_health_check_pre w)
      else match plain_step w s with
           | Some r => negb (success_of r)
           | None => false
           end).

(** The steps up to and including the first one that halts. *)
Fixpoint ran (a : args) (w : world) (steps : list string) : list string :=
  match steps with
  | [] => []
  | s :: rest => if halts_at a w s then [s] else s :: ran a w rest
  end.

(** The first step that halts, if any. *)
Fixpoint first_halt (a : args) (w : world) (steps : list string)
  : option string :=
  match steps with
  | [] => None
  | s :: rest => if halts_at a w s then Some s else first_halt a w rest
  end.

(** The steps that the orchestrator knows. *)
Definition known_steps : list string := pre :: later_steps.

End OrchestratorRunNotions.

Section AutoFixReportNotions.

Import DiagnoseSearch.

(** A fix that the auto-fix step tries to apply: an add-terminology fix with
    both terms. *)
Definition eligible (f : recommended_fix) : bool :=
  is_add_terminology f
  && Py.nonempty (Py.or_empty (fix_user_term f))
  && Py.nonempty (Py.or_empty (fix_standard_term f)).

(** What a dry run reports for an eligible fix. *)
Definition would_apply (f : recommended_fix) : applied_fix :=
  {| a_user_term := Py.or_empty (fix_user_term f);
     a_canonical_term := Py.or_empty (fix_standard_term f);
     a_dry_run := true |}.

End AutoFixReportNotions.

Section StoreNotions.

Import TerminologyMigration.

(** The row with [is_active] cleared. *)
Definition deactivate (r : term_row) : term_row :=
  {| map_type := map_type r; user_term := user_term r;
     canonical_term := canonical_term r; confidence := confidence r;
     source := source r; usage_count := usage_count r;
     is_active := false; is_verified := is_verified r |}.

(** The row of a stored suggestion: inactive, unverified, from log analysis,
    with a lowercase user term. *)
Definition is_suggestion_row (r : term_row) : Prop :=
  is_active r = false /\ is_verified r = false
  /\ source r = "log_analysis" /\ Py.lower (user_term r) = user_term r.


End StoreNotions.

Section OrderNotions.

(** [x] does not sort strictly after [y]. *)
Definition not_after {A} (before : A -> A -> bool) (x y : A) : Prop :=
  before y x = false.

(** A broken batch: one suggestion of an unknown type after a good one. *)
Definition region_suggestion : QueryPopularityReport.suggestion :=
  {| QueryPopularityReport.s_user_term := Some "midwest";
     QueryPopularityReport.s_canonical_term := Some "Midwest";
     QueryPopularityReport.s_map_type := Some "region";
     QueryPopularityReport.s_confidence := Some (9 # 10)%Q |}.

Definition webinar_suggestion : QueryPopularityReport.suggestion :=
  {| QueryPopularityReport.s_user_term := Some "Webinars";
     QueryPopularityReport.s_canonical_term := Some "Webinar";
     QueryPopularityReport.s_map_type := None;
     QueryPopularityReport.s_confidence := None |}.

End OrderNotions.

Section MonitorAndOrchestratorNotions.

Import HealthMonitor MaintenanceOrchestrator.




End MonitorAndOrchestratorNotions.

(** * Properties *)

(** ** Rounding *)

Section Rounding.

Lemma round_half_even_near (q : Q) :
  (2 * Qnum q - Zpos (Qden q)
   <= 2 * Zpos (Qden q) * Py.round_half_even q
   <= 2 * Qnum q + Zpos (Qden q))%Z.
Proof.
  destruct q as [n d]; unfold Py.round_half_even, Qfloor; cbn [Qnum Qden].
  pose proof (Z.div_mod n (Zpos d) ltac:(lia)) as E.
  pose proof (Z.mod_pos_bound n (Zpos d) ltac:(lia)) as B.
  destruct (Z.compare_spec (2 * (n mod Zpos d)) (Zpos d)) as [H|H|H];
    [destruct (Z.even (n / Zpos d))| |]; nia.
Qed.

(** A value between two integers rounds to an integer between them. *)
Lemma round_half_even_between (q : Q) (a b : Z) :
  (a * Zpos (Qden q) <= Qnum q <= b * Zpos (Qden q))%Z ->
  (a <= Py.round_half_even q <= b)%Z.
Proof.
  intros [Ha Hb]. pose proof (round_half_even_near q) as [L U].
  split; nia.
Qed.

(** Only values within one half of [z] round to [z]. *)
Lemma round_half_even_inv (q : Q) (z : Z) :
  Py.round_half_even q = z ->
  (2 * z * Zpos (Qden q) - Zpos (Qden q) <= 2 * Qnum q)%Z.
Proof.
  intros <-. pose proof (round_half_even_near q) as [L U]. nia.
Qed.

End Rounding.

(** ** The resolver's terminology trace *)

Section TerminologyTrace.

Import DiagnoseSearch.




Lemma discard_all_In ms : forall unmatched t,
    In t (discard_all ms unmatched)
    <-> In t unmatched /\ ~ In t (map matched_token ms).
Proof.
  induction ms as [|m ms IH]; intros unmatched t; cbn.
  - tauto.
  - rewrite IH. split.
    + intros [H1 H2]. apply in_remove in H1. intuition congruence.
    + intros [H1 H2]. split; [|tauto].
      apply in_in_remove; [|assumption]. intros ->. tauto.
Qed.




(** The coverage figure of [m] matches over [n] tokens, in tenths. *)
Lemma coverage_tenths (m n : nat) :
  exists p tenths,
    Z.max (Z.of_nat n) 1 = Zpos p /\
    coverage m n = Qmake tenths 10 /\
    (2 * (1000 * Z.of_nat m) - Zpos p
     <= 2 * Zpos p * tenths
     <= 2 * (1000 * Z.of_nat m) + Zpos p)%Z.
Proof.
  unfold coverage, Py.round1.
  destruct (Z.max (Z.of_nat n) 1) as [|p|p] eqn:E; try lia.
  exists p; eexists; split; [reflexivity|]. split; [reflexivity|].
  match goal with |- context [Py.round_half_even ?q] =>
    pose proof (round_half_even_near q) as H;
    change (Qnum q) with (Z.of_nat m * 1 * 100 * 10)%Z in H;
    change (Qden q) with (p * 1 * 1)%positive in H
  end.
  rewrite !Pos.mul_1_r in H. lia.
Qed.

End TerminologyTrace.

Section Coverage.

Import DiagnoseSearch.

Example coverage_of_pager :
  (mapping_coverage (trace_query seeded "pager") == 500)%Q.
Proof. vm_compute. reflexivity. Qed.




(** C2, counterexample.  With the seed row for "one pager" as the only
    mapping, the token "pager" is still listed as unmatched. *)
Lemma scenario_B_as_specified_fails :
  ~ scenario_B_as_specified [one_pager_row 1 "seed" (Some 0%Z) true].
Proof.
  intros (_ & _ & H). apply H. vm_compute. tauto.
Qed.

(** C2, amended.  With "one pager" as the only mapping, the query
    "need a one pager on fafsa" matches it through the token "one", the
    first token that occurs in the user term; "one" is not listed as
    unmatched, and "need", "pager" and "fafsa" are. *)
Theorem scenario_B_first_token_only conf src used verified :
  let r := trace_query [one_pager_row conf src used verified]
                       "need a one pager on fafsa" in
  map (fun m => (m_user_term m, matched_token m)) (matched_mappings r)
  = [(Some "one pager", "one")]
  /\ ~ In "one" (unmatched_tokens r)
  /\ (forall t, In t (unmatched_tokens r)
                <-> t = "need" \/ t = "pager" \/ t = "fafsa").
Proof.
  vm_compute. split; [reflexivity|]. split.
  - intuition discriminate.
  - intros t. intuition congruence.
Qed.

End Coverage.

(** ** The terminology table under inserts *)

Section TerminologyStore.

Import TerminologyMigration.

Lemma key_eqb_eq k1 k2 : key_eqb k1 k2 = true <-> k1 = k2.
Proof.
  destruct k1 as [a b], k2 as [a' b']; unfold key_eqb; cbn.
  rewrite andb_true_iff, !String.eqb_eq. split.
  - intros [-> ->]; reflexivity.
  - intros [= -> ->]; tauto.
Qed.

Lemma conflicts_In t r : conflicts t r = true <-> In (key r) (map key t).
Proof.
  unfold conflicts. rewrite existsb_exists, in_map_iff. split.
  - intros (r' & Hin & Heq). apply key_eqb_eq in Heq. eauto.
  - intros (r' & Heq & Hin). exists r'. split; [assumption|].
    now apply key_eqb_eq.
Qed.

Lemma exec_insert_inr t s t' b :
  exec_insert t s = inr (t', b) ->
  exists r, proposes s r
            /\ ((b = false /\ t' = t /\ In (key r) (map key t))
                \/ (b = true /\ t' = t ++ [r] /\ ~ In (key r) (map key t))).
Proof.
  unfold exec_insert, proposes.
  destruct (same_columns (on_conflict s) unique_columns); cbn; [|discriminate].
  destruct (proposed_row s) as [e|r]; [discriminate|].
  destruct (conflicts t r) eqn:C; intros [= <- <-]; exists r.
  - split; [tauto|]. left. apply conflicts_In in C. tauto.
  - split; [tauto|]. right. repeat split.
    rewrite <- conflicts_In, C. discriminate.
Qed.

Lemma exec_insert_present t s r :
  proposes s r -> In (key r) (map key t) -> exec_insert t s = inr (t, false).
Proof.
  intros [Hc Hr] Hin. unfold exec_insert. rewrite Hc, Hr. cbn.
  apply conflicts_In in Hin. now rewrite Hin.
Qed.

Lemma unique_keys_snoc t r :
  unique_keys t -> ~ In (key r) (map key t) -> unique_keys (t ++ [r]).
Proof.
  unfold unique_keys. intros Hu Hn. rewrite map_app. cbn.
  apply NoDup_app; [assumption | repeat constructor; intros [] | ].
  intros k Hk [<-|[]]. contradiction.
Qed.

(** What one [execute] does to a connection. *)
Lemma execute_effect c s :
  let c' := fst (execute c s) in
  committed c' = committed c
  /\ (exists new, working c' = working c ++ new)
  /\ (unique_keys (working c) -> unique_keys (working c'))
  /\ (failed c = true -> failed c' = true)
  /\ (failed c' = false ->
      exists r, proposes s r /\ In (key r) (map key (working c'))).
Proof.
  unfold execute. destruct (failed c) eqn:F; cbn.
  - rewrite F. repeat split; auto; try discriminate. exists []. now rewrite app_nil_r.
  - destruct (exec_insert (working c) s) as [e|[t' b]] eqn:E; cbn.
    + repeat split; auto; try discriminate. exists []. now rewrite app_nil_r.
    + apply exec_insert_inr in E as (r & Hp & [(-> & -> & Hin)|(-> & -> & Hn)]).
      * repeat split; auto; try discriminate.
        -- exists []. now rewrite app_nil_r.
        -- eauto.
      * repeat split; try discriminate.
        -- eauto.
        -- intros Hu. now apply unique_keys_snoc.
        -- intros _. exists r. split; [assumption|].
           rewrite map_app, in_app_iff. right. now left.
Qed.

Lemma execute_all_effect stmts : forall c,
  let c' := execute_all c stmts in
  committed c' = committed c
  /\ (exists new, working c' = working c ++ new)
  /\ (unique_keys (working c) -> unique_keys (working c'))
  /\ (failed c = true -> failed c' = true)
  /\ (failed c' = false ->
      Forall (fun s => exists r, proposes s r
                                 /\ In (key r) (map key (working c'))) stmts).
Proof.
  induction stmts as [|s rest IH]; intros c; cbn.
  - repeat split; auto. exists []. now rewrite app_nil_r.
  - destruct (execute_effect c s) as (Hc & [n1 Hw] & Hu & Hf & Hk).
    destruct (IH (fst (execute c s))) as (Hc' & [n2 Hw'] & Hu' & Hf' & Hk').
    repeat split.
    + congruence.
    + exists (n1 ++ n2). rewrite Hw', Hw. now rewrite app_assoc.
    + auto.
    + auto.
    + intros F. constructor; [|auto].
      destruct (failed (fst (execute c s))) eqn:F1.
      * rewrite Hf' in F by reflexivity. discriminate.
      * destruct Hk as (r & Hp & Hin); [reflexivity|].
        exists r. split; [assumption|].
        rewrite Hw', map_app, in_app_iff. now left.
Qed.

(** Statements whose keys are all present leave the connection as it is. *)
Lemma execute_all_present stmts t :
  Forall (fun s => exists r, proposes s r /\ In (key r) (map key t)) stmts ->
  execute_all (connect t) stmts = connect t.
Proof.
  induction 1 as [|s rest (r & Hp & Hin) _ IH]; cbn; [reflexivity|].
  unfold execute; cbn. rewrite (exec_insert_present _ _ _ Hp Hin). cbn.
  exact IH.
Qed.

(** Running a batch and committing: no duplicate key, the rows that were
    there are untouched, and running the batch again changes nothing. *)
Lemma batch_idempotent stmts t :
  unique_keys t ->
  let t' := committed (commit (execute_all (connect t) stmts)) in
  unique_keys t'
  /\ (exists new, t' = t ++ new)
  /\ commit (execute_all (connect t') stmts) = connect t'
  /\ commit (execute_all (connect t) stmts) = connect t'.
Proof.
  intros Hu.
  destruct (execute_all_effect stmts (connect t)) as (Hc & [new Hw] & Hk & _ & Hp).
  cbn in Hc, Hw, Hk. unfold commit.
  destruct (failed (execute_all (connect t) stmts)) eqn:F; cbn.
  - rewrite Hc. repeat split; auto.
    + exists []. now rewrite app_nil_r.
    + now rewrite F, Hc.
  - repeat split; auto.
    + eauto.
    + rewrite execute_all_present by auto. reflexivity.
Qed.

Lemma insert_loop_execute_all sugs : forall c n,
  fst (QueryPopularityReport.insert_loop c sugs n)
  = execute_all c (map QueryPopularityReport.suggestion_stmt sugs).
Proof.
  induction sugs as [|s rest IH]; intros c n; cbn; [reflexivity|].
  destruct (execute c (QueryPopularityReport.suggestion_stmt s))
    as [c' [e|[|]]]; cbn; apply IH.
Qed.

Lemma insert_terminology_suggestions_batch c sugs :
  sugs <> [] ->
  fst (QueryPopularityReport.insert_terminology_suggestions c sugs false)
  = commit (execute_all c (map QueryPopularityReport.suggestion_stmt sugs)).
Proof.
  unfold QueryPopularityReport.insert_terminology_suggestions.
  destruct sugs as [|s rest]; [congruence|]. intros _.
  rewrite <- insert_loop_execute_all with (n := 0).
  destruct (QueryPopularityReport.insert_loop c (s :: rest) 0). reflexivity.
Qed.

(** C6.  On a table with at most one row per (map_type, user_term),
    seeding and inserting suggestions keep at most one row per key, leave
    every row that was there as it was and where it was, and change
    nothing when they are run a second time with the same mappings. *)
Theorem inserts_never_duplicate_nor_overwrite
    (t : table) (seeds : list (string * string * string))
    (sugs : list QueryPopularityReport.suggestion) :
  unique_keys t ->
  let seed := run_seed (map seed_row seeds) in
  let suggest c :=
    fst (QueryPopularityReport.insert_terminology_suggestions c sugs false) in
  (unique_keys (committed (seed (connect t)))
   /\ (exists new, committed (seed (connect t)) = t ++ new)
   /\ seed (seed (connect t)) = seed (connect t))
  /\ (unique_keys (committed (suggest (connect t)))
      /\ (exists new, committed (suggest (connect t)) = t ++ new)
      /\ suggest (suggest (connect t)) = suggest (connect t)).
Proof.
  intros Hu seed suggest. split.
  - subst seed. unfold run_seed.
    destruct (batch_idempotent (map seed_row seeds) t Hu) as (H1 & H2 & H3 & H4).
    repeat split; auto. rewrite H4. exact H3.
  - subst suggest. destruct sugs as [|s rest].
    + cbn. repeat split; auto. exists []. now rewrite app_nil_r.
    + rewrite !insert_terminology_suggestions_batch by discriminate.
      destruct (batch_idempotent
                  (map QueryPopularityReport.suggestion_stmt (s :: rest)) t Hu)
        as (H1 & H2 & H3 & H4).
      repeat split; auto. rewrite H4. exact H3.
Qed.

End TerminologyStore.

Section StoreExamples.

Import TerminologyMigration.

Lemma unique_keys_seeded : unique_keys seeded.
Proof.
  unfold unique_keys. vm_compute.
  repeat (constructor; [cbn; intuition discriminate|]). constructor.
Qed.

(** A suggestion for a seeded key is dropped: the seeded row keeps its
    canonical term. *)
Example suggestion_for_seeded_key :
  QueryPopularityReport.insert_terminology_suggestions
    (connect seeded) [brochure_as_ebook] false
  = (connect seeded, 0).
Proof. vm_compute. reflexivity. Qed.

Lemma inserts_never_duplicate_nor_overwrite_witness :
  let seed := run_seed (map seed_row one_pager_seeds) in
  let suggest c :=
    fst (QueryPopularityReport.insert_terminology_suggestions
           c [brochure_as_ebook] false) in
  (unique_keys (committed (seed (connect seeded)))
   /\ (exists new, committed (seed (connect seeded)) = seeded ++ new)
   /\ seed (seed (connect seeded)) = seed (connect seeded))
  /\ (unique_keys (committed (suggest (connect seeded)))
      /\ (exists new, committed (suggest (connect seeded)) = seeded ++ new)
      /\ suggest (suggest (connect seeded)) = suggest (connect seeded)).
Proof.
  apply (inserts_never_duplicate_nor_overwrite seeded one_pager_seeds
           [brochure_as_ebook]).
  unfold unique_keys. vm_compute.
  repeat (constructor; [cbn; intuition discriminate|]). constructor.
Defined.

End StoreExamples.

(** ** The resolver's auto-fix *)

Section AutoFix.

Import TerminologyMigration DiagnoseSearch.

(** The conflict target [(user_term)] matches no unique constraint of the
    table, so the statement is refused whatever the table holds. *)
Lemma auto_fix_stmt_refused t user standard :
  exec_insert t (auto_fix_stmt user standard) = inl NoMatchingUniqueConstraint.
Proof. reflexivity. Qed.

(** A row inserted without naming [is_active] is active. *)
Lemma unnamed_is_active_defaults_to_true s r :
  proposed_row s = inr r -> i_is_active s = None -> is_active r = true.
Proof.
  unfold proposed_row. intros H Ha.
  destruct (i_map_type s), (i_user_term s), (i_canonical_term s);
    try discriminate.
  repeat match type of H with
         | (if ?b then _ else _) = _ => destruct b; [discriminate|]
         end.
  injection H as <-. cbn. now rewrite Ha.
Qed.

Lemma execute_auto_fix_stmt c user standard :
  exists e,
    execute c (auto_fix_stmt user standard)
    = ({| committed := committed c; working := working c; failed := true |},
       inl e).
Proof.
  unfold execute. destruct c as [ct wk [|]]; cbn; eauto.
Qed.

Lemma auto_fix_loop_tables fixes dry_run : forall c applied skipped,
  let '(c', applied', _) := auto_fix_loop c fixes dry_run applied skipped in
  committed c' = committed c /\ working c' = working c
  /\ (dry_run = false -> applied' = applied).
Proof.
  induction fixes as [|f rest IH]; intros c applied skipped; cbn.
  - auto.
  - destruct (is_add_terminology f); [|apply IH].
    destruct (negb _ || negb _); [apply IH|].
    destruct dry_run.
    + specialize (IH c (applied ++
        [{| a_user_term := Py.or_empty (fix_user_term f);
            a_canonical_term := Py.or_empty (fix_standard_term f);
            a_dry_run := true |}]) skipped).
      destruct (auto_fix_loop c rest true _ skipped) as [[c' a'] s'].
      intuition discriminate.
    + destruct (execute_auto_fix_stmt c (Py.or_empty (fix_user_term f))
                  (Py.or_empty (fix_standard_term f))) as [e ->].
      specialize (IH {| committed := committed c; working := working c;
                        failed := true |} applied
                     (skipped ++ [(f, Raised e)])).
      destruct (auto_fix_loop _ rest false applied _) as [[c' a'] s'].
      cbn in IH. exact IH.
Qed.

(** C3.  Outside dry-run the auto-fix step writes nothing: its INSERT names
    neither [map_type] nor the flags, gives a source that the table
    refuses, and names a conflict target that the table does not have, so
    every add-terminology fix ends among the skipped ones.  For the fix
    "fact sheet" to "1-Pager" on an empty table: nothing is inserted, and
    the fix is reported as skipped with the error. *)
Theorem auto_fix_never_inserts :
  (forall c fixes,
      let '(c', r) := step_auto_fix c (Some fixes) false in
      committed c' = committed c /\ working c' = working c
      /\ fixes_applied r = [] /\ total_applied r = 0)
  /\ step_auto_fix (connect []) (Some [fact_sheet_fix]) false
     = ({| committed := []; working := []; failed := true |},
        {| status := NoneApplicable;
           fixes_applied := [];
           fixes_skipped :=
             [(fact_sheet_fix, Raised NoMatchingUniqueConstraint)];
           total_applied := 0 |}).
Proof.
  split; [|reflexivity].
  intros c fixes. unfold step_auto_fix.
  pose proof (auto_fix_loop_tables fixes false c [] []) as H.
  destruct (auto_fix_loop c fixes false [] []) as [[c' a'] s'].
  destruct H as (H1 & H2 & H3). rewrite H3 by reflexivity. cbn. auto.
Qed.

End AutoFix.

(** ** Gap analysis *)

Section Sorting.

Context {A : Type} (before : A -> A -> bool).

Lemma insert_desc_perm (x : A) (l : list A) :
  Permutation (Py.insert_desc before x l) (x :: l).
Proof.
  induction l as [|y l IH]; cbn; [reflexivity|].
  destruct (before y x); [|reflexivity].
  rewrite IH. apply perm_swap.
Qed.

Lemma sort_desc_perm (l : list A) : Permutation (Py.sort_desc before l) l.
Proof.
  induction l as [|x l IH]; cbn; [reflexivity|].
  rewrite insert_desc_perm. now constructor.
Qed.

Lemma sort_desc_In (l : list A) (x : A) :
  In x (Py.sort_desc before l) <-> In x l.
Proof.
  split; apply Permutation_in;
    [apply sort_desc_perm | symmetry; apply sort_desc_perm].
Qed.

End Sorting.

Section GapAnalysis.

Import QueryPopularityReport.

Lemma Qlt_bool_iff (a b : Q) : Py.Qlt_bool a b = true <-> (a < b)%Q.
Proof.
  unfold Py.Qlt_bool. rewrite negb_true_iff, <- not_true_iff_false, Qle_bool_iff.
  split; [apply Qnot_le_lt | apply Qlt_not_le].
Qed.

Lemma collect_gaps_In texts ranking g :
  In g (collect_gaps texts ranking)
  <-> exists entry, In entry ranking /\ gap_of_entry texts entry = Some g.
Proof.
  induction ranking as [|e rest IH]; cbn.
  - split; [intros [] | intros (? & [] & _)].
  - destruct (gap_of_entry texts e) as [g'|] eqn:E; cbn; rewrite IH; split.
    + intros [<-|(e' & H1 & H2)]; eauto.
    + intros (e' & [<-|H1] & H2); [left; congruence | eauto].
    + intros (e' & H1 & H2); eauto.
    + intros (e' & [<-|H1] & H2); [congruence | eauto].
Qed.

(** C4.  An entry asked fewer than twice yields no gap record.  An entry
    asked at least twice yields: severity high when its average is 0;
    otherwise medium when the average is below 2; otherwise low when fewer
    than 3 content items match and it was asked at least 3 times; and no
    gap record otherwise.  The gap list holds exactly the records so
    produced. *)
Theorem gap_classification
    (ranking : list ranking_entry) (inventory : list content_item)
    (entry : ranking_entry) :
  let texts := map content_text inventory in
  let avg := avg_recommendations entry in
  let matches := content_matches texts (r_query entry) in
  (count entry < 2 -> gap_of_entry texts entry = None)
  /\ (2 <= count entry ->
      ((avg == 0)%Q -> severity_of texts entry = Some high)
      /\ (~ (avg == 0)%Q -> (avg < 2)%Q ->
          severity_of texts entry = Some medium)
      /\ (~ (avg == 0)%Q -> ~ (avg < 2)%Q -> matches < 3 -> 3 <= count entry ->
          severity_of texts entry = Some low)
      /\ (~ (avg == 0)%Q -> ~ (avg < 2)%Q -> ~ (matches < 3 /\ 3 <= count entry) ->
          gap_of_entry texts entry = None))
  /\ (forall g, In g (generate_content_gap_analysis ranking inventory)
                <-> exists e, In e ranking /\ gap_of_entry texts e = Some g).
Proof.
  intros texts avg matches. split; [|split].
  - intros H. unfold gap_of_entry.
    apply Nat.ltb_lt in H. now rewrite H.
  - intros H. unfold severity_of, gap_of_entry.
    apply Nat.ltb_ge in H. rewrite H. fold texts avg matches. unfold classify.
    destruct (Qeq_bool avg 0) eqn:E0.
    { apply Qeq_bool_iff in E0. repeat split; intros; tauto. }
    assert (~ (avg == 0)%Q) as N0
        by (intros C; apply Qeq_bool_iff in C; congruence).
    destruct (Py.Qlt_bool avg LOW_RECOMMENDATION_THRESHOLD) eqn:E2.
    { apply Qlt_bool_iff in E2. unfold LOW_RECOMMENDATION_THRESHOLD in E2.
      repeat split; intros; tauto. }
    assert (~ (avg < 2)%Q) as N2
        by (intros C; apply Qlt_bool_iff in C;
            unfold LOW_RECOMMENDATION_THRESHOLD in E2; congruence).
    destruct (Nat.ltb_spec matches 3), (Nat.leb_spec 3 (count entry)); cbn;
      repeat split; intros; try tauto; try lia.
  - intros g. unfold generate_content_gap_analysis.
    rewrite sort_desc_In. apply collect_gaps_In.
Qed.

Lemma gap_classification_witness :
  severity_of (map content_text [xello_overview]) fafsa_checklist = Some high.
Proof.
  apply (proj1 (proj1 (proj2 (gap_classification [fafsa_checklist]
                                [xello_overview] fafsa_checklist))
                      ltac:(cbn; lia))).
  reflexivity.
Defined.

Lemma gap_score_rate_pos (avg : Q) : (0 <= avg -> 0 < 1 / (avg + (1 # 10)))%Q.
Proof.
  intros H. unfold Qdiv. rewrite Qmult_1_l. apply Qinv_lt_0_compat.
  apply Qlt_le_trans with (0 + (1 # 10))%Q; [reflexivity|].
  apply Qplus_le_l. exact H.
Qed.

(** C5.  For a fixed non-negative average the gap score grows strictly
    with the count; for a fixed positive count it falls strictly as the
    average grows over the non-negative values. *)
Theorem gap_score_monotone :
  (forall (avg : Q) (c1 c2 : nat),
      (0 <= avg)%Q -> c1 < c2 -> (gap_score c1 avg < gap_score c2 avg)%Q)
  /\ (forall (c : nat) (a1 a2 : Q),
         0 < c -> (0 <= a1)%Q -> (a1 < a2)%Q ->
         (gap_score c a2 < gap_score c a1)%Q).
Proof.
  split.
  - intros avg c1 c2 Ha Hc. unfold gap_score.
    apply Qmult_lt_compat_r; [now apply gap_score_rate_pos|].
    rewrite <- Zlt_Qlt. lia.
  - intros c a1 a2 Hc Ha Hlt. unfold gap_score.
    apply Qmult_lt_l; [rewrite <- (Zlt_Qlt 0); lia|].
    unfold Qdiv. rewrite !Qmult_1_l.
    assert (0 < a1 + (1 # 10))%Q as P1.
    { apply Qlt_le_trans with (0 + (1 # 10))%Q; [reflexivity|].
      apply Qplus_le_l. exact Ha. }
    assert (0 < a2 + (1 # 10))%Q as P2.
    { apply Qlt_le_trans with (0 + (1 # 10))%Q; [reflexivity|].
      apply Qplus_le_l. apply Qlt_le_weak.
      apply Qle_lt_trans with a1; assumption. }
    apply (proj1 (Qinv_lt_contravar _ _ P1 P2)).
    apply Qplus_lt_l. exact Hlt.
Qed.

Lemma gap_score_monotone_witness :
  (gap_score 2 0 < gap_score 5 0)%Q /\ (gap_score 5 1 < gap_score 5 0)%Q.
Proof.
  split.
  - apply (proj1 gap_score_monotone 0%Q 2 5); [discriminate | lia].
  - apply (proj2 gap_score_monotone 5 0%Q 1%Q); [lia | discriminate | reflexivity].
Defined.

End GapAnalysis.

(** ** Strings *)

Section Strings.

Lemma lower_char_idem (c : ascii) :
  Py.lower_char (Py.lower_char c) = Py.lower_char c.
Proof.
  destruct c as [[] [] [] [] [] [] [] []]; reflexivity.
Qed.

Lemma lower_idem (s : string) : Py.lower (Py.lower s) = Py.lower s.
Proof.
  induction s as [|c s IH]; cbn; [reflexivity|].
  now rewrite lower_char_idem, IH.
Qed.

Lemma lower_app (a b : string) :
  Py.lower (a ++ b) = (Py.lower a ++ Py.lower b)%string.
Proof.
  induction a as [|c a IH]; cbn; [reflexivity|]. now rewrite IH.
Qed.

(** The fields of a lowercase string are lowercase. *)
Lemma fields_lower sep (s : string) :
  Py.lower s = s -> Forall (fun w => Py.lower w = w) (Py.fields sep s).
Proof.
  induction s as [|c s IH]; cbn.
  - intros _. repeat constructor.
  - intros [= Hc Hs]. specialize (IH Hs).
    destruct (sep c); [constructor; [reflexivity | assumption]|].
    destruct (Py.fields sep s) as [|w ws].
    + repeat constructor. cbn. now rewrite Hc.
    + inversion IH as [|? ? Hw Hws]; subst.
      constructor; [|assumption]. cbn. now rewrite Hc, Hw.
Qed.

(** No field holds a separator. *)
Lemma fields_no_sep sep (s : string) :
  Forall (no_char sep) (Py.fields sep s).
Proof.
  induction s as [|c s IH]; cbn.
  - repeat constructor.
  - destruct (sep c) eqn:E; [constructor; [exact I | assumption]|].
    destruct (Py.fields sep s) as [|w ws].
    + repeat constructor. assumption.
    + inversion IH; subst. constructor; [|assumption]. cbn. tauto.
Qed.

Lemma rstrip_no_space (s : string) : no_char Py.is_space s -> Py.rstrip s = s.
Proof.
  induction s as [|c s IH]; cbn; [reflexivity|].
  intros [Hc Hs]. rewrite (IH Hs), Hc. destruct s; reflexivity.
Qed.

Lemma strip_no_space (s : string) : no_char Py.is_space s -> Py.strip s = s.
Proof.
  intros H. unfold Py.strip.
  destruct s as [|c s]; [reflexivity|]. cbn [Py.lstrip].
  destruct H as [Hc Hs]. rewrite Hc. apply rstrip_no_space. cbn. tauto.
Qed.

Lemma split_words (s : string) (w : string) :
  In w (Py.split s) ->
  no_char Py.is_space w /\ (Py.lower s = s -> Py.lower w = w).
Proof.
  unfold Py.split. rewrite filter_In. intros [Hin _]. split.
  - pose proof (fields_no_sep Py.is_space s) as F.
    rewrite Forall_forall in F. auto.
  - intros Hs. pose proof (fields_lower Py.is_space s Hs) as F.
    rewrite Forall_forall in F. auto.
Qed.

Lemma mem_In (x : string) (l : list string) : Py.mem x l = true <-> In x l.
Proof.
  unfold Py.mem. rewrite existsb_exists. split.
  - intros (y & Hy & E). apply String.eqb_eq in E. now subst.
  - intros H. exists x. split; [assumption | apply String.eqb_refl].
Qed.

Lemma In_firstn {A} (n : nat) (l : list A) (x : A) :
  In x (firstn n l) -> In x l.
Proof.
  revert l. induction n as [|n IH]; intros [|y l]; cbn; try tauto.
  intros [->|H]; auto.
Qed.

End Strings.

(** ** Counters *)

Section Counters.

Lemma counter_get_incr (k k' : string) (c : list (string * nat)) :
  Py.counter_get String.eqb k' (Py.counter_incr String.eqb k c)
  = if String.eqb k k' then S (Py.counter_get String.eqb k' c)
    else Py.counter_get String.eqb k' c.
Proof.
  induction c as [|[k0 n] c IH]; cbn.
  - destruct (String.eqb_spec k k'); reflexivity.
  - destruct (String.eqb_spec k0 k) as [->|N]; cbn.
    + destruct (String.eqb_spec k k'); reflexivity.
    + destruct (String.eqb_spec k0 k') as [->|N'].
      * destruct (String.eqb_spec k k'); [congruence | reflexivity].
      * exact IH.
Qed.

Lemma counter_incr_keys (k : string) (c : list (string * nat)) :
  map fst (Py.counter_incr String.eqb k c) = map fst c
  \/ (~ In k (map fst c)
      /\ map fst (Py.counter_incr String.eqb k c) = map fst c ++ [k]).
Proof.
  induction c as [|[k0 n] c IH]; cbn.
  - right. tauto.
  - destruct (String.eqb_spec k0 k) as [->|N]; cbn; [now left|].
    destruct IH as [->|[Hn ->]]; [now left|].
    right. split; [|reflexivity]. intros [?|?]; [congruence | tauto].
Qed.

Lemma counter_incr_NoDup (k : string) (c : list (string * nat)) :
  NoDup (map fst c) -> NoDup (map fst (Py.counter_incr String.eqb k c)).
Proof.
  intros H. destruct (counter_incr_keys k c) as [->|[Hn ->]]; [assumption|].
  apply NoDup_app; [assumption | repeat constructor; intros [] |].
  intros x Hx [<-|[]]. contradiction.
Qed.

Lemma counter_fold (l : list string) : forall c,
  NoDup (map fst c) ->
  let c' := fold_left (fun c k => Py.counter_incr String.eqb k c) l c in
  NoDup (map fst c')
  /\ forall k, Py.counter_get String.eqb k c'
               = count_occ string_dec l k + Py.counter_get String.eqb k c.
Proof.
  induction l as [|x l IH]; intros c Hc; cbn.
  - auto.
  - destruct (IH (Py.counter_incr String.eqb x c) (counter_incr_NoDup x c Hc))
      as [H1 H2].
    split; [assumption|]. intros k. rewrite H2, counter_get_incr.
    destruct (string_dec x k) as [->|N].
    + rewrite String.eqb_refl. lia.
    + destruct (String.eqb_spec x k); [congruence | reflexivity].
Qed.

Lemma counter_get_In (c : list (string * nat)) (k : string) (n : nat) :
  NoDup (map fst c) -> In (k, n) c -> Py.counter_get String.eqb k c = n.
Proof.
  induction c as [|[k0 n0] c IH]; cbn; [tauto|].
  intros Hnd [[= -> ->]|Hin].
  - now rewrite String.eqb_refl.
  - inversion Hnd as [|? ? Hk0 Hc]; subst.
    destruct (String.eqb_spec k0 k) as [->|N]; [|auto].
    exfalso. apply Hk0. apply in_map_iff. exists (k, n). auto.
Qed.

(** A counter holds, for each key, the number of its occurrences. *)
Lemma counter_of_count (l : list string) (k : string) (n : nat) :
  In (k, n) (Py.counter_of String.eqb l) -> n = count_occ string_dec l k.
Proof.
  intros Hin. unfold Py.counter_of in *.
  destruct (counter_fold l [] (NoDup_nil _)) as [Hnd Hget].
  rewrite <- (counter_get_In _ _ _ Hnd Hin), Hget. cbn. lia.
Qed.

Lemma count_occ_filter_le (p : string -> bool) (l : list string) (x : string) :
  count_occ string_dec (filter p l) x <= count_occ string_dec l x.
Proof.
  induction l as [|y l IH]; cbn; [lia|].
  destruct (p y); cbn; destruct (string_dec y x); lia.
Qed.

End Counters.

(** ** Terminology mining *)

Section TerminologyMining.

Import QueryPopularityReport.

Lemma normalized_lower l : Py.lower (normalized l) = normalized l.
Proof. apply lower_idem. Qed.

Lemma split_normalized l :
  map (fun word => Py.lower (Py.strip word)) (Py.split (normalized l))
  = Py.split (normalized l).
Proof.
  rewrite <- (map_id (Py.split (normalized l))) at 2.
  apply map_ext_in. intros w Hw.
  destruct (split_words _ _ Hw) as [H1 H2].
  rewrite (strip_no_space _ H1). apply H2, normalized_lower.
Qed.

Lemma bigrams_In (ws : list string) (b : string) :
  In b (bigrams ws) ->
  exists w1 w2, In w1 ws /\ In w2 ws /\ b = (w1 ++ " " ++ w2)%string.
Proof.
  induction ws as [|w1 [|w2 ws] IH]; cbn [bigrams]; try (intros []).
  - exists w1, w2. subst b. cbn. tauto.
  - destruct (IH H) as (a & c & Ha & Hc & ->).
    exists a, c. repeat split; try (right; assumption).
Qed.

Lemma counted_terms mapped logs :
  map fst (counted mapped logs)
  = flat_map (fun l => counted_unigrams mapped (normalized l)
                       ++ counted_bigrams mapped (normalized l)) logs.
Proof.
  unfold counted. induction logs as [|l logs IH]; cbn; [reflexivity|].
  rewrite map_app, IH, map_map. cbn. now rewrite map_id.
Qed.

(** A counted term is lowercase and on neither side of a mapping. *)
Lemma counted_term_unmapped mapped logs t :
  In t (map fst (counted mapped logs)) ->
  ~ In t mapped /\ Py.lower t = t.
Proof.
  rewrite counted_terms, in_flat_map. intros (l & _ & Hin).
  apply in_app_or in Hin as [Hin|Hin].
  - unfold counted_unigrams in Hin. apply filter_In in Hin as [Hin Hp].
    rewrite !andb_true_iff, !negb_true_iff in Hp. destruct Hp as [_ Hm].
    split.
    + rewrite <- mem_In. congruence.
    + apply in_map_iff in Hin as (w & <- & _). apply lower_idem.
  - unfold counted_bigrams in Hin. apply filter_In in Hin as [Hin Hp].
    rewrite andb_true_iff, !negb_true_iff in Hp. destruct Hp as [Hm _].
    split.
    + rewrite <- mem_In. congruence.
    + apply bigrams_In in Hin as (w1 & w2 & H1 & H2 & ->).
      rewrite !lower_app.
      rewrite (proj2 (split_words _ _ H1) (normalized_lower l)).
      rewrite (proj2 (split_words _ _ H2) (normalized_lower l)).
      reflexivity.
Qed.

Lemma counted_le_raw_one mapped l t :
  count_occ string_dec (counted_unigrams mapped (normalized l)
                        ++ counted_bigrams mapped (normalized l)) t
  <= count_occ string_dec (Py.split (normalized l)
                           ++ bigrams (Py.split (normalized l))) t.
Proof.
  rewrite !count_occ_app. unfold counted_unigrams, counted_bigrams.
  rewrite split_normalized.
  apply Nat.add_le_mono; apply count_occ_filter_le.
Qed.

(** The counter never exceeds the occurrences in the raw queries. *)
Lemma counted_le_raw mapped logs t :
  count_occ string_dec (map fst (counted mapped logs)) t
  <= raw_occurrences t logs.
Proof.
  rewrite counted_terms. unfold raw_occurrences, raw_terms.
  induction logs as [|l logs IH]; cbn [flat_map]; [cbn; lia|].
  rewrite (count_occ_app string_dec (counted_unigrams _ _ ++ _)).
  rewrite (count_occ_app string_dec (Py.split _ ++ _)).
  pose proof (counted_le_raw_one mapped l t). lia.
Qed.

Lemma mapped_terms_In existing user canonical :
  maps_to existing user canonical ->
  In (Py.lower user) (mapped_terms existing)
  /\ In (Py.lower canonical) (mapped_terms existing).
Proof.
  intros (ty & d & H1 & H2). unfold mapped_terms.
  split; apply in_flat_map; exists (ty, d); (split; [assumption|]);
    apply in_or_app; [left|right]; apply in_map_iff;
    exists (user, canonical); auto.
Qed.

Lemma unmapped_terms_counted logs existing item :
  In item (unmapped_terms logs existing) ->
  In (term item, term_count item)
     (Py.counter_of String.eqb
        (map fst (counted (mapped_terms existing) logs)))
  /\ 2 <= term_count item.
Proof.
  unfold unmapped_terms. intros H. apply In_firstn in H.
  apply in_map_iff in H as ([t n] & <- & H). cbn.
  apply filter_In in H as [H Hn]. cbn [snd] in Hn. apply Nat.leb_le in Hn.
  split; [|assumption].
  unfold Py.most_common in H. apply In_firstn in H.
  now apply sort_desc_In in H.
Qed.

Lemma mined_term logs existing item :
  In item (unmapped_terms logs existing) ->
  (forall user canonical,
      maps_to existing user canonical ->
      Py.lower (term item) <> Py.lower user
      /\ Py.lower (term item) <> Py.lower canonical)
  /\ term_count item <= raw_occurrences (term item) logs
  /\ 2 <= term_count item.
Proof.
  intros H. apply unmapped_terms_counted in H as [Hin Hn].
  pose proof (counter_of_count _ _ _ Hin) as Hc.
  assert (In (term item) (map fst (counted (mapped_terms existing) logs)))
    as Hocc.
  { apply (count_occ_In string_dec). lia. }
  destruct (counted_term_unmapped _ _ _ Hocc) as [Hnot Hlow].
  split; [|split; [|assumption]].
  - intros user canonical Hm.
    destruct (mapped_terms_In _ _ _ Hm) as [Hu Hcn].
    rewrite Hlow. split; congruence.
  - rewrite Hc. apply counted_le_raw.
Qed.

End TerminologyMining.

(** ** The active mappings as the analyzer loads them *)

Section ActiveMappings.

Import QueryPopularityReport.

Context {V : Type}.

Lemma dict_get_set_same (k : string) (v : V) (d : list (string * V)) :
  Py.dict_get k (Py.dict_set k v d) = Some v.
Proof.
  induction d as [|[k' v'] d IH]; cbn.
  - now rewrite String.eqb_refl.
  - destruct (String.eqb_spec k' k); cbn.
    + subst. now rewrite String.eqb_refl.
    + destruct (String.eqb_spec k' k); [congruence | exact IH].
Qed.

Lemma dict_get_set_other (k k' : string) (v : V) (d : list (string * V)) :
  k <> k' -> Py.dict_get k' (Py.dict_set k v d) = Py.dict_get k' d.
Proof.
  intros N. induction d as [|[k0 v0] d IH]; cbn.
  - destruct (String.eqb_spec k k'); [congruence | reflexivity].
  - destruct (String.eqb_spec k0 k); cbn.
    + subst. destruct (String.eqb_spec k k'); [congruence | reflexivity].
    + destruct (String.eqb_spec k0 k'); [reflexivity | exact IH].
Qed.

Lemma dict_get_In (k : string) (v : V) (d : list (string * V)) :
  Py.dict_get k d = Some v -> In (k, v) d.
Proof.
  induction d as [|[k0 v0] d IH]; cbn; [discriminate|].
  destruct (String.eqb_spec k0 k).
  - intros [= ->]. left. congruence.
  - intros H. right. auto.
Qed.

End ActiveMappings.

Section FetchMappings.

Import QueryPopularityReport.

Lemma add_mapping_same m row :
  lookup (add_mapping m row) (TerminologyMigration.key row)
  = Some (TerminologyMigration.canonical_term row).
Proof.
  unfold lookup, add_mapping, TerminologyMigration.key; cbn [fst snd].
  rewrite dict_get_set_same. apply dict_get_set_same.
Qed.

Lemma add_mapping_other m row k :
  k <> TerminologyMigration.key row ->
  lookup (add_mapping m row) k = lookup m k.
Proof.
  destruct k as [ty ut]. unfold lookup, add_mapping, TerminologyMigration.key.
  cbn [fst snd]. intros N.
  destruct (string_dec (TerminologyMigration.map_type row) ty) as [<-|Nty].
  - rewrite dict_get_set_same.
    assert (TerminologyMigration.user_term row <> ut) as Nut by congruence.
    rewrite (dict_get_set_other _ _ _ _ Nut).
    destruct (Py.dict_get (TerminologyMigration.map_type row) m) eqn:E.
    + now rewrite E.
    + rewrite dict_get_set_same. reflexivity.
  - rewrite (dict_get_set_other _ _ _ _ Nty).
    destruct (Py.dict_get (TerminologyMigration.map_type row) m);
      [reflexivity | now rewrite (dict_get_set_other _ _ _ _ Nty)].
Qed.

Lemma fold_add_mapping_other rows : forall m k,
  ~ In k (map TerminologyMigration.key rows) ->
  lookup (fold_left add_mapping rows m) k = lookup m k.
Proof.
  induction rows as [|r rows IH]; intros m k Hk; cbn; [reflexivity|].
  cbn in Hk. rewrite IH by tauto. apply add_mapping_other. intuition.
Qed.

Lemma fold_add_mapping_In rows : forall m row,
  NoDup (map TerminologyMigration.key rows) ->
  In row rows ->
  lookup (fold_left add_mapping rows m) (TerminologyMigration.key row)
  = Some (TerminologyMigration.canonical_term row).
Proof.
  induction rows as [|r rows IH]; intros m row Hnd Hin; cbn; [destruct Hin|].
  inversion Hnd as [|? ? Hr Hrows]; subst. destruct Hin as [->|Hin].
  - rewrite fold_add_mapping_other by assumption. apply add_mapping_same.
  - now apply IH.
Qed.

Lemma NoDup_keys_filter (p : TerminologyMigration.term_row -> bool) t :
  NoDup (map TerminologyMigration.key t) ->
  NoDup (map TerminologyMigration.key (filter p t)).
Proof.
  induction t as [|r t IH]; cbn; [constructor|].
  intros Hnd. inversion Hnd as [|? ? Hr Ht]; subst.
  destruct (p r); cbn; [|auto].
  constructor; [|auto]. intros Hin. apply Hr.
  apply in_map_iff in Hin as (r' & E & Hf). apply filter_In in Hf as [Hf _].
  apply in_map_iff. eauto.
Qed.

(** Every active row of a table with unique keys is among the mappings
    that the analyzer loads. *)
Lemma fetched_active_rows t row :
  unique_keys t ->
  In row t ->
  TerminologyMigration.is_active row = true ->
  maps_to (fetch_terminology_mappings t)
          (TerminologyMigration.user_term row)
          (TerminologyMigration.canonical_term row).
Proof.
  intros Hu Hin Ha. unfold fetch_terminology_mappings.
  pose proof (fold_add_mapping_In (filter TerminologyMigration.is_active t) []
                row (NoDup_keys_filter _ _ Hu)
                (proj2 (filter_In _ _ _) (conj Hin Ha))) as H.
  unfold lookup in H. cbn [fst snd TerminologyMigration.key] in H.
  destruct (Py.dict_get (TerminologyMigration.map_type row) _) as [d|] eqn:E;
    [|discriminate].
  exists (TerminologyMigration.map_type row), d.
  split; now apply dict_get_In.
Qed.

(** C7.  A term that terminology mining returns differs, in lowercase,
    from the lowercase user term and canonical term of every mapping it
    was given, and occurs at least twice among the words and adjacent word
    pairs of the raw queries; on a table with unique keys the mappings
    given are all the active rows. *)
Theorem mined_terms_unmapped_and_frequent
    (logs : list PromptLogs.log_entry) :
  (forall existing item,
      In item (unmapped_terms logs existing) ->
      (forall user canonical,
          maps_to existing user canonical ->
          Py.lower (term item) <> Py.lower user
          /\ Py.lower (term item) <> Py.lower canonical)
      /\ 2 <= raw_occurrences (term item) logs)
  /\ (forall t item,
         unique_keys t ->
         In item (unmapped_terms logs (fetch_terminology_mappings t)) ->
         forall row,
           In row t -> TerminologyMigration.is_active row = true ->
           Py.lower (term item)
           <> Py.lower (TerminologyMigration.user_term row)
           /\ Py.lower (term item)
              <> Py.lower (TerminologyMigration.canonical_term row)).
Proof.
  split.
  - intros existing item H.
    destruct (mined_term logs existing item H) as (H1 & H2 & H3).
    split; [assumption | lia].
  - intros t item Hu H row Hin Ha.
    destruct (mined_term logs _ item H) as (H1 & _).
    apply H1. now apply fetched_active_rows.
Qed.

End FetchMappings.

Section MiningExample.

Import QueryPopularityReport.

Lemma mined_terms_unmapped_and_frequent_witness :
  (forall user canonical,
      maps_to fafsa_mappings user canonical ->
      Py.lower (term checklist) <> Py.lower user
      /\ Py.lower (term checklist) <> Py.lower canonical)
  /\ 2 <= raw_occurrences (term checklist) fafsa_logs.
Proof.
  apply (proj1 (mined_terms_unmapped_and_frequent fafsa_logs)
           fafsa_mappings checklist).
  vm_compute. left. reflexivity.
Defined.

End MiningExample.

(** ** Zero-result queries *)

Section ZeroResults.

Import PromptLogs.







End ZeroResults.

Section ZeroResultExample.

Import PromptLogs.


End ZeroResultExample.

(** ** The orchestrator's health gate *)

Section HealthGate.

Import MaintenanceOrchestrator.

(** Every mode starts with the pre-run health check, followed by later
    steps only. *)
Lemma mode_steps (m : string) :
  exists tail,
    match Py.dict_get m MAINTENANCE_STEPS with
    | Some l => l
    | None => daily_steps
    end = pre :: tail
    /\ incl tail later_steps.
Proof.
  unfold MAINTENANCE_STEPS, daily_steps. cbn [Py.dict_get].
  destruct (String.eqb "daily" m); [|destruct (String.eqb "weekly" m);
                                      [|destruct (String.eqb "full" m)]];
    eexists; (split; [reflexivity|]);
    intros x Hx; cbn in Hx |- *; tauto.
Qed.

Lemma later_steps_not_pre : ~ In pre later_steps.
Proof. cbn. intuition discriminate. Qed.

(** When the pre-run health check is to run, it runs first. *)
Lemma steps_to_run_pre (a : args) :
  In pre (steps_to_run a) ->
  exists rest, steps_to_run a = pre :: rest /\ incl rest later_steps.
Proof.
  unfold steps_to_run.
  destruct (mode_steps (mode a)) as (tail & -> & Htail).
  destruct (skip a) as [[|c s]|].
  - intros _. eauto.
  - cbn [filter].
    destruct (negb (Py.mem pre _)) eqn:E.
    + intros _. eexists. split; [reflexivity|].
      intros x Hx. apply filter_In in Hx. apply Htail. tauto.
    + intros H. apply filter_In in H as [H _].
      exfalso. apply later_steps_not_pre. auto.
  - intros _. eauto.
Qed.

Lemma run_maintenance_critical (a : args) (w : world) :
  stop_on_error a = true ->
  In pre (steps_to_run a) ->
  health_pre w = Report (Some "critical") ->
  run_maintenance a w
  = [(pre, Result (PreHealth
                     (succeeds w
                        "health_monitor.py --output /tmp/health_pre.json")
                     "critical" true));
     ("stopped_at", Name pre)].
Proof.
  intros Hstop Hin Hcrit.
  destruct (steps_to_run_pre a Hin) as (rest & Hsteps & _).
  unfold run_maintenance. rewrite Hsteps. cbn.
  unfold step_health_check_pre. rewrite Hcrit, Hstop. reflexivity.
Qed.

(** C8.  With stop-on-error, when the pre-run health check is among the
    steps to run and its report says critical, the pre-run health check
    is the only step executed (log analysis is not), and the report
    records stopped_at = "health_check_pre". *)
Theorem critical_pre_check_halts (a : args) (w : world) :
  stop_on_error a = true ->
  In pre (steps_to_run a) ->
  health_pre w = Report (Some "critical") ->
  executed (run_maintenance a w) = [pre]
  /\ ~ In "log_analysis" (executed (run_maintenance a w))
  /\ stopped_at (maintenance_report a w) = Some (Name pre).
Proof.
  intros Hstop Hin Hcrit.
  unfold maintenance_report.
  rewrite (run_maintenance_critical a w Hstop Hin Hcrit). cbn.
  repeat split. intros [H|[]]. discriminate.
Qed.

(** The name stored under ['stopped_at'] sits among the step results, and
    the printing of the report, which asks every value for its success,
    raises on it. *)
Lemma printing_raises_after_halt (a : args) (w : world) :
  stop_on_error a = true ->
  In pre (steps_to_run a) ->
  health_pre w = Report (Some "critical") ->
  successful (report_results (maintenance_report a w)) = None.
Proof.
  intros Hstop Hin Hcrit.
  unfold maintenance_report. cbn [report_results].
  rewrite (run_maintenance_critical a w Hstop Hin Hcrit). cbn.
  destruct (succeeds w _); reflexivity.
Qed.

Lemma critical_pre_check_halts_witness :
  executed (run_maintenance daily_stop critical_world) = [pre]
  /\ ~ In "log_analysis" (executed (run_maintenance daily_stop critical_world))
  /\ stopped_at (maintenance_report daily_stop critical_world)
     = Some (Name pre).
Proof.
  apply (critical_pre_check_halts daily_stop critical_world).
  - reflexivity.
  - vm_compute. left. reflexivity.
  - reflexivity.
Defined.

End HealthGate.

Section GateOpen.

Import MaintenanceOrchestrator.

Lemma executed_cons k v results :
  executed ((k, v) :: results)
  = if is_result v then k :: executed results else executed results.
Proof. unfold executed. cbn. destruct v; reflexivity. Qed.

Lemma executed_dict_set_keeps k k' v results :
  In k (executed results) ->
  k <> k' \/ is_result v = true ->
  In k (executed (Py.dict_set k' v results)).
Proof.
  intros Hin Hor. induction results as [|[k0 v0] results IH]; [destruct Hin|].
  cbn [Py.dict_set]. rewrite executed_cons in Hin.
  destruct (String.eqb_spec k0 k') as [->|N]; rewrite executed_cons.
  - destruct (is_result v0), (is_result v) eqn:Ev; cbn in *; try tauto.
    destruct Hin as [<-|Hin]; [|assumption].
    destruct Hor; [congruence | discriminate].
  - destruct (is_result v0); cbn in *; tauto.
Qed.

Lemma executed_dict_set_new k r results :
  In k (executed (Py.dict_set k (Result r) results)).
Proof.
  induction results as [|[k0 v0] results IH]; cbn [Py.dict_set].
  - rewrite executed_cons. now left.
  - destruct (String.eqb_spec k0 k) as [->|N]; rewrite executed_cons.
    + now left.
    + destruct (is_result v0); cbn; tauto.
Qed.

(** A step that was executed stays in the results. *)
Lemma run_steps_keeps a w steps : forall results k,
  In k (executed results) -> k <> "stopped_at" ->
  In k (executed (run_steps a w steps results)).
Proof.
  induction steps as [|s steps IH]; intros results k Hin Hk; cbn [run_steps];
    [assumption|].
  destruct (String.eqb s "health_check_pre").
  - destruct (critical_of _ && stop_on_error a).
    + repeat apply executed_dict_set_keeps; auto.
    + apply IH; [|assumption]. apply executed_dict_set_keeps; auto.
  - destruct (plain_step w s) as [r|].
    + destruct (negb (success_of r) && stop_on_error a).
      * repeat apply executed_dict_set_keeps; auto.
      * apply IH; [|assumption]. apply executed_dict_set_keeps; auto.
    + destruct (String.eqb s "health_check_post").
      * apply IH; [|assumption]. apply executed_dict_set_keeps; auto.
      * now apply IH.
Qed.

(** A later step at the head of the remaining steps is executed. *)
Lemma run_steps_head a w next rest results :
  In next later_steps ->
  In next (executed (run_steps a w (next :: rest) results)).
Proof.
  intros Hin. cbn in Hin.
  repeat (destruct Hin as [<-|Hin]; [|]); try destruct Hin;
    cbn [run_steps String.eqb Ascii.eqb Bool.eqb plain_step];
    try (destruct (negb _ && stop_on_error a));
    try (apply run_steps_keeps; [|discriminate]);
    try (apply executed_dict_set_keeps; [|left; discriminate]);
    apply executed_dict_set_new.
Qed.

Lemma dict_get_results_other (k : string) v (results : list (string * value)) :
  k <> "stopped_at" ->
  Py.dict_get "stopped_at" (Py.dict_set k v results)
  = Py.dict_get "stopped_at" results.
Proof. intros N. now apply dict_get_set_other. Qed.

(** The run stops only at a step that it ran. *)
Lemma run_steps_stopped_at a w steps : forall results s,
  Py.dict_get "stopped_at" (run_steps a w steps results) = Some (Name s) ->
  Py.dict_get "stopped_at" results = Some (Name s) \/ In s steps.
Proof.
  induction steps as [|x steps IH]; intros results s; cbn [run_steps];
    [tauto|].
  destruct (String.eqb_spec x "health_check_pre") as [->|Npre].
  - destruct (critical_of _ && stop_on_error a).
    + rewrite dict_get_set_same. intros [= <-]. right. now left.
    + intros H. apply IH in H as [H|H]; [|right; now right].
      rewrite dict_get_results_other in H by discriminate. tauto.
  - destruct (plain_step w x) as [r|] eqn:P.
    + assert (x <> "stopped_at") as Nx.
      { intros ->. cbn in P. discriminate. }
      destruct (negb (success_of r) && stop_on_error a).
      * rewrite dict_get_set_same. intros [= <-]. right. now left.
      * intros H. apply IH in H as [H|H]; [|right; now right].
        rewrite dict_get_results_other in H by assumption. tauto.
    + destruct (String.eqb_spec x "health_check_post") as [->|Npost].
      * intros H. apply IH in H as [H|H]; [|right; now right].
        rewrite dict_get_results_other in H by discriminate. tauto.
      * intros H. apply IH in H as [H|H]; [tauto | right; now right].
Qed.

(** C10.  When the pre-run health check is among the steps to run and the
    status read from its report is not "critical" (it is "unknown" when
    the report is missing or unreadable), then whether or not its
    subprocess succeeded and whether or not stop-on-error is set, the run
    does not stop at the pre-run health check: it goes on with the
    remaining steps, and the next step is executed. *)
Theorem unknown_pre_check_does_not_halt (a : args) (w : world) :
  In pre (steps_to_run a) ->
  status_of (health_pre w) <> "critical" ->
  status_of Missing = "unknown" /\ status_of Unreadable = "unknown"
  /\ exists rest,
      steps_to_run a = pre :: rest
      /\ run_maintenance a w
         = run_steps a w rest
             [(pre, Result (step_health_check_pre w))]
      /\ critical_of (step_health_check_pre w) = false
      /\ stopped_at (maintenance_report a w) <> Some (Name pre)
      /\ (forall next rest', rest = next :: rest' ->
                             In next (executed (run_maintenance a w))).
Proof.
  intros Hin Hstatus. split; [reflexivity|]. split; [reflexivity|].
  destruct (steps_to_run_pre a Hin) as (rest & Hsteps & Hrest).
  assert (critical_of (step_health_check_pre w) = false) as Hcrit.
  { cbn. destruct (String.eqb_spec (status_of (health_pre w)) "critical");
      [contradiction | reflexivity]. }
  assert (run_maintenance a w
          = run_steps a w rest [(pre, Result (step_health_check_pre w))]) as E.
  { unfold run_maintenance. rewrite Hsteps.
    cbn [run_steps String.eqb Ascii.eqb Bool.eqb pre Py.dict_set].
    now rewrite Hcrit. }
  exists rest. repeat split; try assumption.
  - unfold maintenance_report; cbn [stopped_at]. rewrite E. intros H.
    apply run_steps_stopped_at in H as [H|H]; [discriminate|].
    apply later_steps_not_pre. auto.
  - intros next rest' ->. rewrite E. apply run_steps_head.
    apply Hrest. now left.
Qed.

Lemma unknown_pre_check_does_not_halt_witness :
  status_of Missing = "unknown" /\ status_of Unreadable = "unknown"
  /\ exists rest,
      steps_to_run daily_stop = pre :: rest
      /\ run_maintenance daily_stop unreadable_world
         = run_steps daily_stop unreadable_world rest
             [(pre, Result (step_health_check_pre unreadable_world))]
      /\ critical_of (step_health_check_pre unreadable_world) = false
      /\ stopped_at (maintenance_report daily_stop unreadable_world)
         <> Some (Name pre)
      /\ (forall next rest', rest = next :: rest' ->
            In next (executed (run_maintenance daily_stop unreadable_world))).
Proof.
  apply (unknown_pre_check_does_not_halt daily_stop unreadable_world).
  - vm_compute. left. reflexivity.
  - discriminate.
Defined.

End GateOpen.

(** ** The orchestrator's run as a whole *)

Section OrchestratorRun.

Import MaintenanceOrchestrator.

Lemma dict_set_fresh {V} (k : string) (v : V) (d : list (string * V)) :
  ~ In k (map fst d) -> Py.dict_set k v d = d ++ [(k, v)].
Proof.
  induction d as [|[k0 v0] d IH]; cbn; [reflexivity|].
  intros H. destruct (String.eqb_spec k0 k); [tauto|].
  rewrite IH by tauto. reflexivity.
Qed.

Lemma known_not_stopped_at s : In s known_steps -> s <> "stopped_at".
Proof. cbn. intuition (subst; discriminate). Qed.

(** What one step of the loop does, for a step that the orchestrator
    knows. *)
Lemma run_steps_known a w s rest results :
  In s known_steps ->
  run_steps a w (s :: rest) results
  = if halts_at a w s
    then Py.dict_set "stopped_at" (Name s)
           (Py.dict_set s (Result (outcome w s)) results)
    else run_steps a w rest (Py.dict_set s (Result (outcome w s)) results).
Proof.
  intros Hin. unfold halts_at, outcome. cbn in Hin.
  destruct (stop_on_error a) eqn:Hstop;
    repeat (destruct Hin as [<-|Hin]; [|]); try destruct Hin;
    cbn [run_steps String.eqb Ascii.eqb Bool.eqb plain_step pre andb];
    rewrite ?Hstop, ?andb_true_r, ?andb_false_r; reflexivity.
Qed.

(** The results dictionary after the loop: one entry per step that ran, in
    order, then the stop marker if a step halted the run. *)
Lemma run_steps_form a w steps : forall results,
  incl steps known_steps ->
  NoDup steps ->
  (forall s, In s steps -> ~ In s (map fst results)) ->
  ~ In "stopped_at" (map fst results) ->
  run_steps a w steps results
  = results
    ++ map (fun s => (s, Result (outcome w s))) (ran a w steps)
    ++ match first_halt a w steps with
       | Some s => [("stopped_at", Name s)]
       | None => []
       end.
Proof.
  induction steps as [|s rest IH]; intros results Hknown Hnd Hfresh Hstop.
  - cbn. now rewrite app_nil_r.
  - assert (In s known_steps) as Hs by (apply Hknown; now left).
    rewrite (run_steps_known a w s rest results Hs).
    rewrite (dict_set_fresh s) by (apply Hfresh; now left).
    inversion Hnd as [|? ? Hsrest Hrest]; subst.
    cbn [ran first_halt]. destruct (halts_at a w s).
    + rewrite dict_set_fresh; [now rewrite <- app_assoc|].
      rewrite map_app, in_app_iff. cbn.
      pose proof (known_not_stopped_at s Hs). intuition.
    + rewrite IH.
      * now rewrite <- app_assoc.
      * intros x Hx. apply Hknown. now right.
      * assumption.
      * intros x Hx. rewrite map_app, in_app_iff. cbn.
        intros [H|[->|[]]]; [|contradiction].
        apply (Hfresh x); [now right | assumption].
      * rewrite map_app, in_app_iff. cbn.
        pose proof (known_not_stopped_at s Hs). intuition.
Qed.

Lemma mode_steps_NoDup (m : string) :
  NoDup match Py.dict_get m MAINTENANCE_STEPS with
        | Some l => l
        | None => daily_steps
        end.
Proof.
  unfold MAINTENANCE_STEPS, daily_steps. cbn [Py.dict_get].
  destruct (String.eqb "daily" m); [|destruct (String.eqb "weekly" m);
                                      [|destruct (String.eqb "full" m)]];
    repeat (constructor; [cbn; intuition discriminate|]); constructor.
Qed.

(** The steps to run are known steps, each at most once. *)
Lemma steps_to_run_known (a : args) :
  incl (steps_to_run a) known_steps /\ NoDup (steps_to_run a).
Proof.
  unfold steps_to_run.
  pose proof (mode_steps_NoDup (mode a)) as Hnd.
  destruct (mode_steps (mode a)) as (tail & E & Htail).
  rewrite E in *.
  assert (incl (pre :: tail) known_steps) as Hk.
  { intros x [<-|Hx]; [now left | right; auto]. }
  destruct (skip a) as [[|c s]|]; try (split; assumption).
  split.
  - intros x Hx. apply filter_In in Hx as [Hx _]. auto.
  - now apply NoDup_filter.
Qed.

Lemma run_maintenance_form (a : args) (w : world) :
  run_maintenance a w
  = map (fun s => (s, Result (outcome w s))) (ran a w (steps_to_run a))
    ++ match first_halt a w (steps_to_run a) with
       | Some s => [("stopped_at", Name s)]
       | None => []
       end.
Proof.
  unfold run_maintenance.
  destruct (steps_to_run_known a) as [Hk Hnd].
  rewrite run_steps_form; auto.
Qed.

Lemma executed_results (w : world) (l : list string) tail :
  (forall kv, In kv tail -> is_result (snd kv) = false) ->
  executed (map (fun s => (s, Result (outcome w s))) l ++ tail) = l.
Proof.
  intros Htail. unfold executed. rewrite filter_app, map_app.
  assert (filter (fun kv => match snd kv with Result _ => true | Name _ => false end)
                 tail = []) as ->.
  { induction tail as [|kv tail IH]; [reflexivity|]. cbn.
    pose proof (Htail kv (or_introl eq_refl)) as H. unfold is_result in H.
    rewrite H. apply IH. intros x Hx. apply Htail. now right. }
  rewrite app_nil_r.
  induction l as [|x l IH]; cbn; [reflexivity | now rewrite IH].
Qed.

Lemma executed_run_maintenance (a : args) (w : world) :
  executed (run_maintenance a w) = ran a w (steps_to_run a).
Proof.
  rewrite run_maintenance_form. apply executed_results.
  destruct (first_halt a w (steps_to_run a)); cbn; intros kv Hkv;
    [destruct Hkv as [<-|[]]; reflexivity | destruct Hkv].
Qed.

Lemma dict_get_results_stopped (w : world) (l : list string) tail :
  ~ In "stopped_at" l ->
  Py.dict_get "stopped_at"
    (map (fun s => (s, Result (outcome w s))) l ++ tail)
  = Py.dict_get "stopped_at" tail.
Proof.
  induction l as [|x l IH]; cbn; [reflexivity|]. intros H.
  destruct (String.eqb_spec x "stopped_at"); [tauto | apply IH; tauto].
Qed.

Lemma ran_incl a w steps : incl (ran a w steps) steps.
Proof.
  induction steps as [|s rest IH]; cbn; [intros x []|].
  destruct (halts_at a w s); intros x [<-|Hx]; try (now left); try destruct Hx.
  right. auto.
Qed.

Lemma stopped_at_run_maintenance (a : args) (w : world) :
  stopped_at (maintenance_report a w)
  = option_map Name (first_halt a w (steps_to_run a)).
Proof.
  unfold maintenance_report; cbn [stopped_at]. rewrite run_maintenance_form.
  rewrite dict_get_results_stopped.
  - destruct (first_halt a w (steps_to_run a)); reflexivity.
  - intros H. apply ran_incl in H.
    destruct (steps_to_run_known a) as [Hk _].
    now apply (known_not_stopped_at _ (Hk _ H)).
Qed.

Lemma ran_no_stop a w steps : stop_on_error a = false -> ran a w steps = steps.
Proof.
  intros H. induction steps as [|s rest IH]; cbn; [reflexivity|].
  unfold halts_at. rewrite H. cbn. now rewrite IH.
Qed.

Lemma first_halt_no_stop a w steps :
  stop_on_error a = false -> first_halt a w steps = None.
Proof.
  intros H. induction steps as [|s rest IH]; cbn; [reflexivity|].
  unfold halts_at. rewrite H. cbn. exact IH.
Qed.

(** Without stop-on-error every step that is not skipped is executed, in
    the order of the mode, whatever the steps report, and the report holds
    no stop marker. *)
Theorem without_stop_on_error_all_steps_run (a : args) (w : world) :
  stop_on_error a = false ->
  executed (run_maintenance a w) = steps_to_run a
  /\ stopped_at (maintenance_report a w) = None.
Proof.
  intros H. rewrite executed_run_maintenance, stopped_at_run_maintenance.
  now rewrite ran_no_stop, first_halt_no_stop.
Qed.

Lemma ran_first_halt a w steps :
  match first_halt a w steps with
  | Some s => exists before after,
      steps = before ++ s :: after /\ ran a w steps = before ++ [s]
      /\ halts_at a w s = true
      /\ forall x, In x before -> halts_at a w x = false
  | None => ran a w steps = steps
            /\ forall x, In x steps -> halts_at a w x = false
  end.
Proof.
  induction steps as [|s rest IH]; cbn.
  - split; [reflexivity | intros x []].
  - destruct (halts_at a w s) eqn:Hs.
    + exists [], rest. repeat split; auto. intros x [].
    + destruct (first_halt a w rest) as [h|].
      * destruct IH as (before & after & -> & -> & Hh & Hb).
        exists (s :: before), after. repeat split; auto.
        intros x [<-|Hx]; auto.
      * destruct IH as [-> Hall]. split; [reflexivity|].
        intros x [<-|Hx]; auto.
Qed.

(** When the run is stopped at a step, the steps executed are exactly the
    steps to run up to that step; the step is the pre-run health check with
    a critical status, or a step other than the two health checks whose
    command failed; and stop-on-error was set. *)
Theorem stopped_run_is_a_prefix (a : args) (w : world) (s : string) :
  stopped_at (maintenance_report a w) = Some (Name s) ->
  stop_on_error a = true
  /\ (exists before after,
         steps_to_run a = before ++ s :: after
         /\ executed (run_maintenance a w) = before ++ [s])
  /\ ((s = "health_check_pre"
       /\ status_of (health_pre w) = "critical")
      \/ (exists r, plain_step w s = Some r /\ success_of r = false)).
Proof.
  rewrite stopped_at_run_maintenance, executed_run_maintenance.
  pose proof (ran_first_halt a w (steps_to_run a)) as H.
  destruct (first_halt a w (steps_to_run a)) as [h|]; [|discriminate].
  intros [= <-]. destruct H as (before & after & E & R & Hh & _).
  unfold halts_at in Hh. apply andb_true_iff in Hh as [Hstop Hh].
  split; [assumption|]. split; [eauto|].
  destruct (String.eqb_spec h "health_check_pre") as [->|N].
  - left. split; [reflexivity|]. cbn in Hh. now apply String.eqb_eq.
  - right. destruct (plain_step w h) as [r|]; [|discriminate].
    exists r. split; [reflexivity|]. now apply negb_true_iff.
Qed.

Lemma stopped_run_is_a_prefix_witness :
  stop_on_error daily_stop = true
  /\ (exists before after,
         steps_to_run daily_stop = before ++ "log_analysis" :: after
         /\ executed (run_maintenance daily_stop unreadable_world)
            = before ++ ["log_analysis"])
  /\ (("log_analysis" = "health_check_pre"
       /\ status_of (health_pre unreadable_world) = "critical")
      \/ (exists r, plain_step unreadable_world "log_analysis" = Some r
                    /\ success_of r = false)).
Proof.
  apply (stopped_run_is_a_prefix daily_stop unreadable_world "log_analysis").
  reflexivity.
Defined.

Lemma without_stop_on_error_all_steps_run_witness :
  let a := {| mode := "weekly"; skip := Some "enrichment";
              stop_on_error := false; dry_run := true; verbose := false |} in
  executed (run_maintenance a critical_world) = steps_to_run a
  /\ stopped_at (maintenance_report a critical_world) = None.
Proof.
  apply (without_stop_on_error_all_steps_run
           {| mode := "weekly"; skip := Some "enrichment";
              stop_on_error := false; dry_run := true; verbose := false |}
           critical_world).
  reflexivity.
Defined.

Lemma successful_results (w : world) (l : list string) :
  exists n, successful (map (fun s => (s, Result (outcome w s))) l) = Some n
            /\ n = List.length (filter (fun s => success_of (outcome w s)) l).
Proof.
  induction l as [|x l (n & E & Hn)]; cbn; [eauto|].
  rewrite E. destruct (success_of (outcome w x)); cbn; eexists; split;
    try reflexivity; lia.
Qed.

Lemma successful_app_name (w : world) (l : list string) (s : string) :
  successful (map (fun s => (s, Result (outcome w s))) l
              ++ [("stopped_at", Name s)]) = None.
Proof.
  induction l as [|x l IH]; cbn; [reflexivity|]. rewrite IH.
  destruct (success_of (outcome w x)); reflexivity.
Qed.

(** Printing the report counts the successful steps when the run went
    through, and raises exactly when the run was stopped: the stop marker is
    stored among the step results, and it is not a step result. *)
Theorem printing_raises_iff_stopped (a : args) (w : world) :
  (stopped_at (maintenance_report a w) = None ->
   successful (report_results (maintenance_report a w))
   = Some (List.length (filter (fun s => success_of (outcome w s))
                               (steps_to_run a))))
  /\ (stopped_at (maintenance_report a w) <> None <->
      successful (report_results (maintenance_report a w)) = None).
Proof.
  rewrite stopped_at_run_maintenance.
  unfold maintenance_report; cbn [report_results].
  rewrite run_maintenance_form.
  pose proof (ran_first_halt a w (steps_to_run a)) as H.
  destruct (first_halt a w (steps_to_run a)) as [h|]; cbn [option_map].
  - rewrite successful_app_name. split; [discriminate|].
    split; [reflexivity | discriminate].
  - destruct H as [-> _]. rewrite app_nil_r.
    destruct (successful_results w (steps_to_run a)) as (n & -> & ->).
    split; [reflexivity|]. split; [congruence | discriminate].
Qed.

Lemma printing_raises_iff_stopped_witness :
  let a := {| mode := "weekly"; skip := Some "enrichment";
              stop_on_error := false; dry_run := true; verbose := false |} in
  successful (report_results (maintenance_report a critical_world))
  = Some (List.length (filter (fun s => success_of (outcome critical_world s))
                              (steps_to_run a))).
Proof.
  apply (proj1 (printing_raises_iff_stopped
                  {| mode := "weekly"; skip := Some "enrichment";
                     stop_on_error := false; dry_run := true;
                     verbose := false |} critical_world)).
  reflexivity.
Defined.

End OrchestratorRun.

(** ** What the auto-fix step reports *)

Section AutoFixReport.

Import TerminologyMigration DiagnoseSearch.

Lemma eligible_false_cases (f : recommended_fix) :
  is_add_terminology f = true ->
  negb (Py.nonempty (Py.or_empty (fix_user_term f)))
  || negb (Py.nonempty (Py.or_empty (fix_standard_term f)))
  = negb (eligible f).
Proof.
  intros H. unfold eligible. rewrite H. cbn.
  now rewrite negb_andb.
Qed.

Lemma auto_fix_loop_dry fixes : forall c applied skipped,
  exists reasons,
    auto_fix_loop c fixes true applied skipped
    = (c, applied ++ map would_apply (filter eligible fixes),
       skipped ++ reasons)
    /\ map fst reasons = filter (fun f => negb (eligible f)) fixes.
Proof.
  induction fixes as [|f rest IH]; intros c applied skipped.
  - exists []. cbn. now rewrite !app_nil_r.
  - cbn [auto_fix_loop filter].
    destruct (is_add_terminology f) eqn:A.
    + rewrite (eligible_false_cases f A).
      destruct (eligible f) eqn:E; cbn [negb].
      * fold (would_apply f).
        destruct (IH c (applied ++ [would_apply f]) skipped) as (rs & -> & Hr).
        exists rs. rewrite <- app_assoc. auto.
      * destruct (IH c applied (skipped ++ [(f, MissingTerm)])) as (rs & -> & Hr).
        exists ((f, MissingTerm) :: rs). rewrite <- app_assoc. cbn.
        now rewrite Hr.
    + assert (eligible f = false) as E by (unfold eligible; now rewrite A).
      rewrite E. cbn [negb].
      destruct (IH c applied (skipped ++ [(f, NotSupported (fix_type f))]))
        as (rs & -> & Hr).
      exists ((f, NotSupported (fix_type f)) :: rs). rewrite <- app_assoc. cbn.
      now rewrite Hr.
Qed.

Lemma auto_fix_loop_real fixes : forall c applied skipped,
  exists c' reasons,
    auto_fix_loop c fixes false applied skipped
    = (c', applied, skipped ++ reasons)
    /\ map fst reasons = fixes.
Proof.
  induction fixes as [|f rest IH]; intros c applied skipped.
  - exists c, []. cbn. now rewrite app_nil_r.
  - cbn [auto_fix_loop].
    destruct (is_add_terminology f).
    + destruct (negb _ || negb _).
      * destruct (IH c applied (skipped ++ [(f, MissingTerm)]))
          as (c' & rs & -> & Hr).
        exists c', ((f, MissingTerm) :: rs). rewrite <- app_assoc. cbn.
        now rewrite Hr.
      * destruct (execute_auto_fix_stmt c (Py.or_empty (fix_user_term f))
                    (Py.or_empty (fix_standard_term f))) as [e ->].
        destruct (IH {| committed := committed c; working := working c;
                        failed := true |} applied (skipped ++ [(f, Raised e)]))
          as (c' & rs & -> & Hr).
        exists c', ((f, Raised e) :: rs). rewrite <- app_assoc. cbn.
        now rewrite Hr.
    + destruct (IH c applied (skipped ++ [(f, NotSupported (fix_type f))]))
        as (c' & rs & -> & Hr).
      exists c', ((f, NotSupported (fix_type f)) :: rs). rewrite <- app_assoc.
      cbn. now rewrite Hr.
Qed.

(** A dry run of the auto-fix step leaves the connection as it is and
    reports as applied exactly the add-terminology fixes that have both
    terms, in order, and as skipped exactly the others; the real run reports
    every fix as skipped, those included. *)
Theorem dry_run_reports_what_the_real_run_skips
    (c : conn) (fixes : list recommended_fix) :
  (fst (step_auto_fix c (Some fixes) true) = c
   /\ fixes_applied (snd (step_auto_fix c (Some fixes) true))
      = map would_apply (filter eligible fixes)
   /\ map fst (fixes_skipped (snd (step_auto_fix c (Some fixes) true)))
      = filter (fun f => negb (eligible f)) fixes)
  /\ (fixes_applied (snd (step_auto_fix c (Some fixes) false)) = []
      /\ map fst (fixes_skipped (snd (step_auto_fix c (Some fixes) false)))
         = fixes
      /\ status (snd (step_auto_fix c (Some fixes) false)) = NoneApplicable).
Proof.
  unfold step_auto_fix. split.
  - destruct (auto_fix_loop_dry fixes c [] []) as (rs & -> & Hr). cbn. auto.
  - destruct (auto_fix_loop_real fixes c [] []) as (c' & rs & -> & Hr).
    cbn. auto.
Qed.

End AutoFixReport.

(** ** Suggestions and the readers of the table *)

Section SuggestionsAndReaders.

Import TerminologyMigration.

Lemma suggestion_row (s : QueryPopularityReport.suggestion) (r : term_row) :
  proposed_row (QueryPopularityReport.suggestion_stmt s) = inr r ->
  is_suggestion_row r.
Proof.
  unfold proposed_row, QueryPopularityReport.suggestion_stmt.
  cbn [i_map_type i_user_term i_canonical_term i_confidence i_source
       i_usage_count i_is_active i_is_verified default].
  intros H.
  repeat match type of H with
         | (if ?b then _ else _) = _ => destruct b; [discriminate|]
         end.
  injection H as <-. unfold is_suggestion_row. cbn.
  repeat split. apply lower_idem.
Qed.

(** The rows that a batch adds to the working table all come from its
    statements. *)
Lemma execute_all_new_rows (P : term_row -> Prop) stmts : forall c,
  Forall (fun s => forall r, proposed_row s = inr r -> P r) stmts ->
  exists new,
    working (execute_all c stmts) = working c ++ new /\ Forall P new.
Proof.
  induction stmts as [|s rest IH]; intros c HP; cbn.
  - exists []. now rewrite app_nil_r.
  - inversion HP as [|? ? Hs Hrest]; subst.
    destruct (IH (fst (execute c s)) Hrest) as (new & -> & Hnew).
    unfold execute. destruct (failed c); cbn; [eauto|].
    destruct (exec_insert (working c) s) as [e|[t' b]] eqn:E; cbn; [eauto|].
    apply exec_insert_inr in E as (r & [_ Hp] & [(-> & -> & _)|(-> & -> & _)]).
    + eauto.
    + exists (r :: new). rewrite <- app_assoc. split; [reflexivity|].
      constructor; auto.
Qed.

Lemma suggestions_new_rows t sugs dry_run :
  exists new,
    committed (fst (QueryPopularityReport.insert_terminology_suggestions
                      (connect t) sugs dry_run)) = t ++ new
    /\ Forall is_suggestion_row new.
Proof.
  destruct sugs as [|s rest]; [exists []; cbn; now rewrite app_nil_r|].
  destruct dry_run; [exists []; cbn; now rewrite app_nil_r|].
  rewrite insert_terminology_suggestions_batch by discriminate.
  set (stmts := map QueryPopularityReport.suggestion_stmt (s :: rest)).
  destruct (execute_all_effect stmts (connect t)) as (Hc & _).
  destruct (execute_all_new_rows is_suggestion_row stmts (connect t))
    as (new & Hw & Hnew).
  { apply Forall_forall. intros st Hst r Hr.
    apply in_map_iff in Hst as (sg & <- & _). eapply suggestion_row; eauto. }
  unfold commit.
  destruct (failed (execute_all (connect t) stmts)); cbn [committed connect].
  - exists []. rewrite Hc. cbn. now rewrite app_nil_r.
  - exists new. rewrite Hw. auto.
Qed.

Lemma filter_is_active_suggestions t new :
  Forall is_suggestion_row new ->
  filter is_active (t ++ new) = filter is_active t.
Proof.
  intros H. rewrite filter_app.
  assert (filter is_active new = []) as ->; [|apply app_nil_r].
  induction H as [|r new (Ha & _) _ IH]; cbn; [reflexivity|].
  now rewrite Ha.
Qed.

(** Every row that [insert_terminology_suggestions] adds is inactive,
    unverified, from log analysis and has a lowercase user term; the rows
    that were there are untouched, and the mappings that the analyzer loads
    from the table are the same after the insertion as before. *)
Theorem suggestions_stay_out_of_the_analysis
    (t : table) (sugs : list QueryPopularityReport.suggestion)
    (dry_run : bool) :
  let t' := committed (fst (QueryPopularityReport.insert_terminology_suggestions
                              (connect t) sugs dry_run)) in
  (exists new, t' = t ++ new /\ Forall is_suggestion_row new)
  /\ QueryPopularityReport.fetch_terminology_mappings t'
     = QueryPopularityReport.fetch_terminology_mappings t
  /\ forall logs,
      QueryPopularityReport.unmapped_terms logs
        (QueryPopularityReport.fetch_terminology_mappings t')
      = QueryPopularityReport.unmapped_terms logs
          (QueryPopularityReport.fetch_terminology_mappings t).
Proof.
  intros t'. destruct (suggestions_new_rows t sugs dry_run) as (new & E & Hnew).
  fold t' in E.
  assert (QueryPopularityReport.fetch_terminology_mappings t'
          = QueryPopularityReport.fetch_terminology_mappings t) as F.
  { unfold QueryPopularityReport.fetch_terminology_mappings.
    now rewrite E, filter_is_active_suggestions. }
  split; [eauto|]. split; [assumption|]. intros logs. now rewrite F.
Qed.

(** The resolver reads every row of the table, active or not: deactivating
    mappings changes nothing in the trace of a query. *)
Theorem resolver_reads_inactive_mappings (t : table) (query : string) :
  DiagnoseSearch.trace_query (map deactivate t) query
  = DiagnoseSearch.trace_query t query
  /\ DiagnoseSearch.total_mappings_available
       (DiagnoseSearch.trace_query t query) = List.length t.
Proof.
  unfold DiagnoseSearch.trace_query, DiagnoseSearch.select_mappings.
  rewrite map_map. cbn [deactivate user_term canonical_term source usage_count].
  split; [reflexivity|].
  unfold DiagnoseSearch.step_trace_terminology.
  destruct (DiagnoseSearch.trace_loop _ _ _ _). cbn.
  rewrite (Permutation_length (sort_desc_perm _ _)). apply length_map.
Qed.

End SuggestionsAndReaders.

(** ** Loading the active mappings *)

Section LoadedMappings.

Import TerminologyMigration QueryPopularityReport.

Lemma key_eq_dec (k1 k2 : string * string) : {k1 = k2} + {k1 <> k2}.
Proof. decide equality; apply string_dec. Qed.

Lemma fold_add_mapping_Some rows : forall m k ct,
  lookup (fold_left add_mapping rows m) k = Some ct ->
  lookup m k = Some ct
  \/ exists row, In row rows /\ key row = k /\ canonical_term row = ct.
Proof.
  induction rows as [|r rows IH]; intros m k ct H; cbn in H; [now left|].
  apply IH in H as [H|(row & Hin & Hk & Hc)].
  - destruct (key_eq_dec k (key r)) as [->|N].
    + rewrite add_mapping_same in H. injection H as <-.
      right. exists r. repeat split. now left.
    + rewrite add_mapping_other in H by assumption. now left.
  - right. exists row. repeat split; auto. now right.
Qed.

(** On a table with unique keys, the mappings that the analyzer loads are
    exactly the active rows: a type and user term look up a canonical term
    if and only if an active row maps them to it. *)
Theorem loaded_mappings_are_the_active_rows
    (t : table) (k : string * string) (ct : string) :
  unique_keys t ->
  (lookup (fetch_terminology_mappings t) k = Some ct
   <-> exists row, In row t /\ is_active row = true
                   /\ key row = k /\ canonical_term row = ct).
Proof.
  intros Hu. unfold fetch_terminology_mappings. split.
  - intros H. apply fold_add_mapping_Some in H as [H|(row & Hin & Hk & Hc)].
    + destruct k; cbn in H. discriminate.
    + apply filter_In in Hin as [Hin Ha]. eauto 6.
  - intros (row & Hin & Ha & <- & <-).
    apply fold_add_mapping_In.
    + now apply NoDup_keys_filter.
    + apply filter_In. auto.
Qed.

Lemma loaded_mappings_are_the_active_rows_witness :
  lookup (fetch_terminology_mappings seeded) ("content_type", "brochure")
  = Some "1-Pager"
  <-> exists row, In row seeded /\ is_active row = true
                  /\ key row = ("content_type", "brochure")
                  /\ canonical_term row = "1-Pager".
Proof.
  apply (loaded_mappings_are_the_active_rows seeded
           ("content_type", "brochure") "1-Pager").
  unfold unique_keys. vm_compute.
  repeat (constructor; [cbn; intuition discriminate|]). constructor.
Defined.

End LoadedMappings.

(** ** The count that the insertion returns *)

Section InsertedCount.

Import TerminologyMigration QueryPopularityReport.







End InsertedCount.

Section InsertedCountExamples.

Import TerminologyMigration QueryPopularityReport.

(** One new row is counted, and lost with the suggestion that follows. *)
Example refused_suggestion_loses_the_batch :
  insert_terminology_suggestions (connect seeded)
    [webinar_suggestion; region_suggestion] false
  = (connect seeded, 1).
Proof. vm_compute. reflexivity. Qed.


End InsertedCountExamples.

(** ** Descending sorts *)

Section SortedDesc.

Context {A : Type} (before : A -> A -> bool).
Hypothesis before_asym : forall x y, before x y = true -> before y x = false.
Hypothesis before_negtrans :
  forall x y z, before x y = false -> before y z = false -> before x z = false.

Lemma insert_desc_Forall (P : A -> Prop) (x : A) (l : list A) :
  P x -> Forall P l -> Forall P (Py.insert_desc before x l).
Proof.
  intros Hx Hl.
  eapply Permutation_Forall; [symmetry; apply insert_desc_perm|].
  now constructor.
Qed.

Lemma insert_desc_sorted (x : A) (l : list A) :
  StronglySorted (not_after before) l ->
  StronglySorted (not_after before) (Py.insert_desc before x l).
Proof.
  induction 1 as [|y l Hl IH Hy]; cbn.
  - repeat constructor.
  - destruct (before y x) eqn:E.
    + constructor; [assumption|].
      apply insert_desc_Forall; [|assumption].
      unfold not_after. auto.
    + constructor; [now constructor|].
      constructor; [exact E|].
      rewrite Forall_forall in *. intros w Hw. unfold not_after in *.
      eauto.
Qed.

Lemma sort_desc_sorted (l : list A) :
  StronglySorted (not_after before) (Py.sort_desc before l).
Proof.
  induction l as [|x l IH]; cbn; [constructor | now apply insert_desc_sorted].
Qed.

End SortedDesc.

Section SortedLists.

Context {A : Type} (R : A -> A -> Prop).

Lemma StronglySorted_firstn (n : nat) (l : list A) :
  StronglySorted R l -> StronglySorted R (firstn n l).
Proof.
  intros H. revert n. induction H as [|x l Hl IH Hx]; intros [|n]; cbn;
    try constructor; auto.
  rewrite Forall_forall in *. intros y Hy. apply Hx. eapply In_firstn; eauto.
Qed.

Lemma StronglySorted_filter (p : A -> bool) (l : list A) :
  StronglySorted R l -> StronglySorted R (filter p l).
Proof.
  induction 1 as [|x l Hl IH Hx]; cbn; [constructor|].
  destruct (p x); [|assumption]. constructor; [assumption|].
  rewrite Forall_forall in *. intros y Hy. apply filter_In in Hy. apply Hx. tauto.
Qed.

Lemma StronglySorted_map {B} (f : B -> A) (l : list B) :
  StronglySorted (fun x y => R (f x) (f y)) l -> StronglySorted R (map f l).
Proof.
  induction 1 as [|x l Hl IH Hx]; cbn; constructor; auto.
  rewrite Forall_forall in *. intros y Hy.
  apply in_map_iff in Hy as (z & <- & Hz). auto.
Qed.

Lemma StronglySorted_weaken (R' : A -> A -> Prop) (l : list A) :
  (forall x y, R x y -> R' x y) -> StronglySorted R l -> StronglySorted R' l.
Proof.
  intros HR. induction 1 as [|x l Hl IH Hx]; constructor; auto.
  rewrite Forall_forall in *. auto.
Qed.

End SortedLists.

(** ** The gap list as a whole *)

Section GapList.

Import QueryPopularityReport.

Lemma Qlt_bool_false (a b : Q) : Py.Qlt_bool a b = false <-> (b <= a)%Q.
Proof.
  unfold Py.Qlt_bool. rewrite negb_false_iff. apply Qle_bool_iff.
Qed.




End GapList.

(** ** Counters over any key *)

Section CounterFacts.

Context {K : Type} (eqb : K -> K -> bool).
Hypothesis eqb_spec : forall x y, reflect (x = y) (eqb x y).

Lemma counter_incr_keys_gen (k : K) (c : list (K * nat)) :
  map fst (Py.counter_incr eqb k c) = map fst c
  \/ (~ In k (map fst c)
      /\ map fst (Py.counter_incr eqb k c) = map fst c ++ [k]).
Proof.
  induction c as [|[k0 n] c IH]; cbn.
  - right. tauto.
  - destruct (eqb_spec k0 k) as [->|N]; cbn; [now left|].
    destruct IH as [->|[Hn ->]]; [now left|].
    right. split; [|reflexivity]. intros [?|?]; [congruence | tauto].
Qed.

Lemma counter_incr_get_gen (k k' : K) (c : list (K * nat)) :
  Py.counter_get eqb k' (Py.counter_incr eqb k c)
  = if eqb k k' then S (Py.counter_get eqb k' c) else Py.counter_get eqb k' c.
Proof.
  induction c as [|[k0 n] c IH]; cbn.
  - destruct (eqb_spec k k'); reflexivity.
  - destruct (eqb_spec k0 k) as [->|N]; cbn.
    + destruct (eqb_spec k k'); reflexivity.
    + destruct (eqb_spec k0 k') as [->|N'].
      * destruct (eqb_spec k k'); [congruence | reflexivity].
      * exact IH.
Qed.

Lemma counter_fold_gen (l : list K) : forall c,
  NoDup (map fst c) ->
  let c' := fold_left (fun c k => Py.counter_incr eqb k c) l c in
  NoDup (map fst c')
  /\ (forall k, Py.counter_get eqb k c'
                = List.length (filter (eqb k) l) + Py.counter_get eqb k c)
  /\ (forall k, In k (map fst c') -> In k (map fst c) \/ In k l).
Proof.
  induction l as [|x l IH]; intros c Hc; cbn.
  - auto.
  - assert (NoDup (map fst (Py.counter_incr eqb x c))) as Hnd.
    { destruct (counter_incr_keys_gen x c) as [->|[Hn ->]]; [assumption|].
      apply NoDup_app; [assumption | repeat constructor; intros [] |].
      intros y Hy [<-|[]]. contradiction. }
    destruct (IH _ Hnd) as (H1 & H2 & H3).
    split; [assumption|]. split.
    + intros k. rewrite H2, counter_incr_get_gen.
      destruct (eqb_spec k x) as [->|N].
      * destruct (eqb_spec x x); [cbn; lia | congruence].
      * destruct (eqb_spec x k); [congruence | reflexivity].
    + intros k Hk. apply H3 in Hk as [Hk|Hk]; [|tauto].
      destruct (counter_incr_keys_gen x c) as [E|[_ E]]; rewrite E in Hk.
      * tauto.
      * apply in_app_or in Hk as [Hk|[<-|[]]]; tauto.
Qed.

Lemma counter_get_In_gen (c : list (K * nat)) (k : K) (n : nat) :
  NoDup (map fst c) -> In (k, n) c -> Py.counter_get eqb k c = n.
Proof.
  induction c as [|[k0 n0] c IH]; cbn; [tauto|].
  intros Hnd [[= -> ->]|Hin].
  - destruct (eqb_spec k k); [reflexivity | congruence].
  - inversion Hnd as [|? ? Hk0 Hc]; subst.
    destruct (eqb_spec k0 k) as [->|N]; [|auto].
    exfalso. apply Hk0. apply in_map_iff. exists (k, n). auto.
Qed.

(** The entries of a counter: distinct keys, each with the number of its
    occurrences, which is at least one. *)
Lemma counter_of_entries (l : list K) :
  NoDup (map fst (Py.counter_of eqb l))
  /\ forall k n, In (k, n) (Py.counter_of eqb l) ->
                 n = List.length (filter (eqb k) l) /\ 1 <= n /\ In k l.
Proof.
  unfold Py.counter_of.
  destruct (counter_fold_gen l [] (NoDup_nil _)) as (Hnd & Hget & Hkeys).
  split; [assumption|]. intros k n Hin.
  assert (In k l) as Hk.
  { destruct (Hkeys k) as [[]|H]; [|assumption].
    apply in_map_iff. exists (k, n). auto. }
  assert (n = List.length (filter (eqb k) l)) as ->.
  { rewrite <- (counter_get_In_gen _ _ _ Hnd Hin), Hget. cbn. lia. }
  repeat split; [|assumption].
  assert (In k (filter (eqb k) l)) as Hf.
  { apply filter_In. split; [assumption|].
    destruct (eqb_spec k k); [reflexivity | congruence]. }
  destruct (filter (eqb k) l); [destruct Hf | cbn; lia].
Qed.

End CounterFacts.

Section Sublists.

Context {A B : Type} (f : A -> B).

Lemma NoDup_map_firstn (n : nat) (l : list A) :
  NoDup (map f l) -> NoDup (map f (firstn n l)).
Proof.
  revert n. induction l as [|x l IH]; intros [|n] H; cbn; try constructor.
  - inversion H as [|? ? Hx Hl]; subst. intros Hin. apply Hx.
    apply in_map_iff in Hin as (y & E & Hy). apply In_firstn in Hy.
    apply in_map_iff. eauto.
  - inversion H; subst. auto.
Qed.

Lemma NoDup_map_filter (p : A -> bool) (l : list A) :
  NoDup (map f l) -> NoDup (map f (filter p l)).
Proof.
  induction l as [|x l IH]; cbn; intros H; [constructor|].
  inversion H as [|? ? Hx Hl]; subst.
  destruct (p x); cbn; [|auto]. constructor; [|auto].
  intros Hin. apply Hx. apply in_map_iff in Hin as (y & E & Hy).
  apply filter_In in Hy as [Hy _]. apply in_map_iff. eauto.
Qed.

End Sublists.

Section CountOrders.

Lemma by_nat_key_orders {A} (k : A -> nat) :
  let before := fun x y => (k y <? k x)%nat in
  (forall x y, before x y = true -> before y x = false)
  /\ (forall x y z, before x y = false -> before y z = false ->
                    before x z = false).
Proof.
  cbn. split.
  - intros x y H. apply Nat.ltb_lt in H. apply Nat.ltb_ge. lia.
  - intros x y z H1 H2. apply Nat.ltb_ge in H1, H2. apply Nat.ltb_ge. lia.
Qed.

(** [most_common] yields at most [n] entries of the counter, each key once,
    the larger counts first. *)
Lemma most_common_shape {K} (n : nat) (c : list (K * nat)) :
  NoDup (map fst c) ->
  List.length (Py.most_common n c) <= n
  /\ NoDup (map fst (Py.most_common n c))
  /\ StronglySorted (fun x y => snd y <= snd x) (Py.most_common n c)
  /\ incl (Py.most_common n c) c.
Proof.
  intros Hnd. unfold Py.most_common.
  set (before := fun x y : K * nat => (snd y <? snd x)%nat).
  destruct (by_nat_key_orders (@snd K nat)) as [Hasym Hneg].
  repeat split.
  - rewrite length_firstn. lia.
  - apply NoDup_map_firstn.
    eapply Permutation_NoDup; [|exact Hnd].
    apply Permutation_map. symmetry. apply sort_desc_perm.
  - apply StronglySorted_firstn.
    eapply StronglySorted_weaken; [|apply (sort_desc_sorted before Hasym Hneg)].
    intros x y H. unfold not_after, before in H. now apply Nat.ltb_ge in H.
  - intros x Hx. apply In_firstn in Hx. now apply sort_desc_In in Hx.
Qed.

End CountOrders.

(** ** The shape of the mining output and of the worst-query list *)

Section MiningShape.

Import QueryPopularityReport.

Lemma string_eqb_reflect (x y : string) : reflect (x = y) (String.eqb x y).
Proof. apply String.eqb_spec. Qed.

Lemma dict_set_Forall {V} (P : V -> Prop) (k : string) (v : V)
    (d : list (string * V)) :
  Forall (fun kv => P (snd kv)) d -> P v ->
  Forall (fun kv => P (snd kv)) (Py.dict_set k v d).
Proof.
  intros Hd Hv. induction Hd as [|[k0 v0] d H0 Hd IH]; cbn.
  - repeat constructor. assumption.
  - destruct (String.eqb k0 k); constructor; auto.
Qed.

Lemma dict_get_Forall {V} (P : V -> Prop) (k : string) (v : V)
    (d : list (string * V)) :
  Forall (fun kv => P (snd kv)) d -> Py.dict_get k d = Some v -> P v.
Proof.
  intros Hd Hg. apply dict_get_In in Hg. rewrite Forall_forall in Hd.
  apply (Hd (k, v) Hg).
Qed.

Lemma add_example_values (S : list string) events : forall ex,
  Forall (fun kv => incl (snd kv) S) ex ->
  incl (map snd events) S ->
  Forall (fun kv => incl (snd kv) S) (fold_left add_example events ex).
Proof.
  induction events as [|e events IH]; intros ex Hex HS; cbn; [assumption|].
  apply IH; [|intros x Hx; apply HS; now right].
  unfold add_example.
  assert (incl match Py.dict_get (fst e) ex with Some l => l | None => [] end S)
    as Hl.
  { destruct (Py.dict_get (fst e) ex) as [l|] eqn:E; [|intros x []].
    apply (dict_get_Forall (fun v => incl v S) _ _ _ Hex E). }
  destruct (_ <? 3)%nat; apply (dict_set_Forall (fun v => incl v S)); auto.
  intros x Hx. apply in_app_or in Hx as [Hx|[<-|[]]]; [auto|].
  apply HS. now left.
Qed.

Lemma counted_queries mapped logs :
  incl (map snd (counted mapped logs)) (map normalized logs).
Proof.
  unfold counted. intros q Hq. apply in_map_iff in Hq as ([t q'] & <- & Hin).
  apply in_flat_map in Hin as (l & Hl & Hin).
  apply in_map_iff in Hin as (t' & [= <- <-] & _).
  cbn. now apply in_map.
Qed.

(** Terminology mining returns at most 50 terms, each once, the more
    frequent first; each comes with at most three example queries, all of
    them normalized queries of the log. *)
Theorem mining_output_shape
    (logs : list PromptLogs.log_entry) (existing : mappings) :
  let out := unmapped_terms logs existing in
  List.length out <= 50
  /\ NoDup (map term out)
  /\ StronglySorted (fun a b => term_count b <= term_count a) out
  /\ Forall (fun item =>
               List.length (example_queries item) <= 3
               /\ NoDup (example_queries item)
               /\ incl (example_queries item) (map normalized logs)) out.
Proof.
  intros out. subst out. unfold unmapped_terms.
  set (events := counted (mapped_terms existing) logs).
  set (c := Py.counter_of String.eqb (map fst events)).
  set (ex := fold_left add_example events []).
  destruct (counter_of_entries String.eqb string_eqb_reflect (map fst events))
    as [Hnd _]. fold c in Hnd.
  destruct (most_common_shape 100 c Hnd) as (_ & Hmc_nd & Hmc_sorted & _).
  set (mc := Py.most_common 100 c) in *.
  set (mk := fun tc : string * nat =>
               {| term := fst tc; term_count := snd tc;
                  example_queries :=
                    firstn 3 (nodup string_dec
                                match Py.dict_get (fst tc) ex with
                                | Some l => l
                                | None => []
                                end) |}).
  repeat split.
  - rewrite length_firstn. lia.
  - apply NoDup_map_firstn. rewrite map_map.
    rewrite (map_ext (fun x => term (mk x)) fst) by reflexivity.
    now apply NoDup_map_filter.
  - apply StronglySorted_firstn, StronglySorted_map.
    unfold mk; cbn [term_count].
    now apply StronglySorted_filter.
  - apply Forall_forall. intros item Hitem. apply In_firstn in Hitem.
    apply in_map_iff in Hitem as (tc & <- & _). unfold mk; cbn [example_queries].
    repeat split.
    + rewrite length_firstn. lia.
    + assert (forall l : list string, NoDup l -> NoDup (firstn 3 l)) as Hf.
      { intros l Hl. rewrite <- (map_id (firstn 3 l)).
        apply NoDup_map_firstn. now rewrite map_id. }
      apply Hf, NoDup_nodup.
    + intros q Hq. apply In_firstn, nodup_In in Hq.
      destruct (Py.dict_get (fst tc) ex) as [l|] eqn:E; [|destruct Hq].
      assert (Forall (fun kv : string * list string =>
                        incl (snd kv) (map normalized logs)) ex) as Hex.
      { apply add_example_values; [constructor | apply counted_queries]. }
      apply (dict_get_Forall (fun v => incl v (map normalized logs)) _ _ _ Hex E).
      assumption.
Qed.

End MiningShape.

Section WorstQueries.

Import PromptLogs DiagnoseSearch.

Lemma option_string_eqb_reflect (x y : option string) :
  reflect (x = y) (option_string_eqb x y).
Proof.
  destruct x as [a|], y as [b|]; cbn; try (constructor; congruence).
  destruct (String.eqb_spec a b); constructor; congruence.
Qed.

Lemma filter_map_length_gen {A B} (f : A -> B) (p : B -> bool) (l : list A) :
  List.length (filter p (map f l))
  = List.length (filter (fun x => p (f x)) l).
Proof.
  induction l as [|x l IH]; cbn; [reflexivity|].
  destruct (p (f x)); cbn; now rewrite IH.
Qed.

(** The [--worst n] selection holds at most [n] queries, each once, the
    more frequent first; the count of a query is the number of its log
    entries of the last 7 days that have no or zero recommendations, and
    there is at least one such entry. *)
Theorem worst_queries_shape (now : Z) (n : nat) (logs : list log_entry) :
  let out := worst_queries now n logs in
  List.length out <= n
  /\ NoDup (map fst out)
  /\ StronglySorted (fun x y => snd y <= snd x) out
  /\ Forall (fun qc =>
               snd qc
               = List.length
                   (filter (fun l => option_string_eqb (fst qc) (query l))
                           (worst_rows now logs))
               /\ exists l, In l logs /\ query l = fst qc
                            /\ (now - 7 * day < created_at l)%Z
                            /\ (recommendations_count l = None
                                \/ recommendations_count l = Some 0%Z)) out.
Proof.
  intros out. subst out. unfold worst_queries.
  destruct (counter_of_entries option_string_eqb option_string_eqb_reflect
              (map query (worst_rows now logs))) as [Hnd Hent].
  destruct (most_common_shape n _ Hnd) as (H1 & H2 & H3 & H4).
  repeat split; try assumption.
  apply Forall_forall. intros [q c] Hqc. apply H4 in Hqc.
  destruct (Hent q c Hqc) as (-> & _ & Hin). cbn [fst snd].
  split; [apply filter_map_length_gen|].
  apply in_map_iff in Hin as (l & Hq & Hl).
  unfold worst_rows in Hl. apply filter_In in Hl as [Hl Hc].
  exists l. split; [assumption|]. split; [assumption|].
  unfold sql_and, newer_than, zero_or_null, sql_or, sql_eq, sql_is_null in Hc.
  destruct (Z.ltb_spec (now - 7 * day) (created_at l)) as [Ht|Ht].
  - split; [assumption|].
    destruct (recommendations_count l) as [r|]; [|now left].
    right. destruct (Z.eqb_spec r 0); [congruence | discriminate].
  - destruct (recommendations_count l) as [r|]; [|discriminate].
    destruct (r =? 0)%Z; discriminate.
Qed.

End WorstQueries.

(** ** The health monitor *)

Section HealthChecks.

Import HealthMonitor.

Lemma filter_length_le {A} (p : A -> bool) (l : list A) :
  List.length (filter p l) <= List.length l.
Proof.
  induction l as [|x l IH]; cbn; [lia|]. destruct (p x); cbn; lia.
Qed.

(** A rounded percentage of [z] out of [t], with [z <= t]. *)
Lemma rounded_rate_bounds (z t : nat) :
  z <= t ->
  (0 <= Py.round1 (rate z t) <= 100)%Q
  /\ (t = 0 -> Py.round1 (rate z t) = Qmake 0 10).
Proof.
  intros Hzt.
  change (Py.round1 (rate z t)) with (DiagnoseSearch.coverage z t).
  destruct (coverage_tenths z t) as (p & tenths & Hp & -> & Hlo & Hhi).
  assert (Z.of_nat z <= Zpos p)%Z by lia.
  assert (0 <= tenths <= 1000)%Z by (split; nia).
  split.
  - unfold Qle; cbn. lia.
  - intros ->. assert (z = 0) as -> by lia.
    f_equal. cbn in Hp. assert (p = 1%positive) as -> by lia. lia.
Qed.

(** The zero-result rates are percentages: between 0 and 100, with no more
    zero-result queries than queries.  With no query in the last 24 hours
    the rate is 0, and for a threshold that is not negative the check
    passes without an alert. *)
Theorem zero_result_rate_is_a_percentage
    (now baseline_days : Z) (threshold : Q)
    (logs : list PromptLogs.log_entry) :
  let q := step_query_quality now baseline_days threshold logs in
  zero_result_queries q <= total_queries_24h q
  /\ (0 <= zero_result_rate q <= 100)%Q
  /\ (0 <= baseline_zero_result_rate q <= 100)%Q
  /\ (total_queries_24h q = 0 -> (0 <= threshold)%Q ->
      zero_result_rate q = Qmake 0 10 /\ alerts q = [] /\ status q = pass).
Proof.
  intros q. subst q. unfold step_query_quality.
  cbn [zero_result_queries total_queries_24h zero_result_rate
       baseline_zero_result_rate alerts status].
  set (cur := current_rows now logs).
  set (base := baseline_rows now baseline_days logs).
  assert (count_zero_result cur <= List.length cur) as Hc
      by apply filter_length_le.
  assert (count_zero_result base <= List.length base) as Hb
      by apply filter_length_le.
  destruct (rounded_rate_bounds _ _ Hc) as [Hc1 Hc2].
  destruct (rounded_rate_bounds _ _ Hb) as [Hb1 Hb2].
  split; [exact Hc|]. split; [exact Hc1|]. split; [exact Hb1|].
  intros H Hth. rewrite (Hc2 H).
  assert (Py.Qlt_bool (threshold * 100) (0 # 10) = false) as ->.
  { apply Qlt_bool_false. unfold Qle in *. cbn in *. nia. }
  assert (Py.Qlt_bool 0
            (Py.round1 (rate (count_zero_result base) (List.length base)))
          && Py.Qlt_bool
               (Py.round1 (rate (count_zero_result base) (List.length base))
                * (3 # 2)) (0 # 10) = false) as ->.
  { apply andb_false_iff. right. apply Qlt_bool_false.
    destruct Hb1 as [Hb1 _]. unfold Qle in *. cbn in *. nia. }
  cbn. auto.
Qed.

Lemma zero_result_rate_is_a_percentage_witness :
  let q := step_query_quality 1000000 7 (15 # 100)%Q [] in
  zero_result_rate q = Qmake 0 10 /\ alerts q = [] /\ status q = pass.
Proof.
  apply (proj2 (proj2 (proj2 (zero_result_rate_is_a_percentage
                                1000000 7 (15 # 100)%Q [])))).
  - reflexivity.
  - discriminate.
Defined.

End HealthChecks.

Section Freshness.

Import HealthMonitor.




End Freshness.

Section Verdict.

Import HealthMonitor.






End Verdict.

Section MonitorAndOrchestrator.

Import HealthMonitor MaintenanceOrchestrator.





End MonitorAndOrchestrator.
